(** * MCP client: a shallow embedding of [client.py] and
    [mcpserverconnector.py]

    The development follows the two source files:

    - Python values, [str()] / [repr()], exceptions;
    - the part of the [json] module the client calls
      ([json.loads], [json.dumps(..., ensure_ascii=False)]);
    - the collaborators (chat model client, MCP session, SSE connection,
      terminal) as an interface over an abstract world;
    - [MCPServerConnector] ([__aenter__], [__aexit__]);
    - [MCPClient] ([build_tools_for_deepseek], [call_tool], [process_query],
      [chat_loop]) and [main];
    - the properties.

    Python strings are represented by their UTF-8 bytes ([string]).
    Floating point numbers are not interpreted: a float is carried as the
    text of its literal. *)

From Stdlib Require Import String Ascii List ZArith NArith Bool Lia.
From Stdlib Require Import DecimalString.
From Stdlib Require Decimal DecimalFacts DecimalPos DecimalZ.
Import ListNotations.

Local Open Scope list_scope.
Local Open Scope string_scope.

(** The double quote character (code 34). *)
Definition dquote : ascii := Eval cbv in ascii_of_N 34.

(** ** Strings *)

Module Str.

(** [sep.join(l)] *)
Definition join (sep : string) (l : list string) : string :=
  String.concat sep l.

(** [c in s] for a single character *)
Fixpoint mem (c : ascii) (s : string) : bool :=
  match s with
  | EmptyString => false
  | String d s' => Ascii.eqb c d || mem c s'
  end.

Fixpoint rev_onto (s acc : string) : string :=
  match s with
  | EmptyString => acc
  | String c s' => rev_onto s' (String c acc)
  end.

Definition rev (s : string) : string := rev_onto s "".

(** [s.startswith(p)] *)
Fixpoint is_prefix (p s : string) : bool :=
  match p, s with
  | EmptyString, _ => true
  | String a p', String b s' => Ascii.eqb a b && is_prefix p' s'
  | String _ _, EmptyString => false
  end.

Fixpoint drop (n : nat) (s : string) : string :=
  match n, s with
  | O, _ => s
  | S n', String _ s' => drop n' s'
  | S _, EmptyString => EmptyString
  end.

(** ASCII part of [str.lower()]: bytes of non-ASCII characters are left
    alone.  No non-ASCII character lowercases to one of the letters
    [q], [u], [i], [t], so the comparison of [chat_loop] is exact. *)
Definition lower_char (c : ascii) : ascii :=
  let n := N_of_ascii c in
  if ((65 <=? n) && (n <=? 90))%N then ascii_of_N (n + 32) else c.

Fixpoint lower (s : string) : string :=
  match s with
  | EmptyString => EmptyString
  | String c s' => String (lower_char c) (lower s')
  end.

(** The characters [str.strip()] removes, as UTF-8 byte sequences:
    the ASCII ones (TAB..CR, FS..US, SPACE) and U+0085, U+00A0, U+1680,
    U+2000..U+200A, U+2028, U+2029, U+202F, U+205F, U+3000. *)
Definition ascii_space (c : ascii) : bool :=
  let n := N_of_ascii c in
  ((9 <=? n) && (n <=? 13) || (28 <=? n) && (n <=? 32))%N.

Definition byte (n : N) : ascii := ascii_of_N n.

Definition wide_spaces : list string :=
  map (fun bs => string_of_list_ascii (map byte bs))
      ([ [194; 133]; [194; 160]; [225; 154; 128] ]
       ++ map (fun k => [226; 128; 128 + k])
              [0; 1; 2; 3; 4; 5; 6; 7; 8; 9; 10; 40; 41; 47]
       ++ [ [226; 129; 159]; [227; 128; 128] ])%N%list.

(** Length of the whitespace character [s] starts with, if any. *)
Definition space_prefix (spaces : list string) (s : string) : option nat :=
  match s with
  | EmptyString => None
  | String c _ =>
      if ascii_space c then Some 1
      else
        match find (fun w => is_prefix w s) spaces with
        | Some w => Some (String.length w)
        | None => None
        end
  end.

Fixpoint lstrip_with (spaces : list string) (fuel : nat) (s : string) : string :=
  match fuel with
  | O => s
  | S fuel' =>
      match space_prefix spaces s with
      | Some k => lstrip_with spaces fuel' (drop k s)
      | None => s
      end
  end.

Definition lstrip (s : string) : string :=
  lstrip_with wide_spaces (String.length s) s.

Definition rstrip (s : string) : string :=
  rev (lstrip_with (map rev wide_spaces) (String.length s) (rev s)).

(** [s.strip()] *)
Definition strip (s : string) : string := rstrip (lstrip s).

Definition hex_digit (n : N) : ascii :=
  if (n <? 10)%N then ascii_of_N (48 + n) else ascii_of_N (87 + n).

(** Two lowercase hexadecimal digits of a byte. *)
Definition hex2 (c : ascii) : string :=
  let n := N_of_ascii c in
  String (hex_digit (n / 16)) (String (hex_digit (n mod 16)) "").

End Str.

(** ** Dicts with string keys, in insertion order *)

Module Dict.

Section Dict.
Context {V : Type}.

(** [d[k] = v] *)
Fixpoint set (k : string) (v : V) (d : list (string * V)) : list (string * V) :=
  match d with
  | [] => [(k, v)]
  | (k', v') :: d' =>
      if String.eqb k k' then (k, v) :: d' else (k', v') :: set k v d'
  end.

(** [dict(pairs)], also a dict comprehension over [pairs]: a repeated key
    keeps its first place and its last value. *)
Definition of_pairs (pairs : list (string * V)) : list (string * V) :=
  fold_left (fun d kv => set (fst kv) (snd kv) d) pairs [].

(** [d.get(k)] *)
Fixpoint get (k : string) (d : list (string * V)) : option V :=
  match d with
  | [] => None
  | (k', v) :: d' => if String.eqb k k' then Some v else get k d'
  end.

(** [d.values()] *)
Definition values (d : list (string * V)) : list V := map snd d.

End Dict.

End Dict.

(** ** Exceptions *)

Inductive exn_class : Type :=
| RuntimeError
| AttributeError
| TypeError
| KeyError
| IndexError
| FileNotFoundError
| JSONDecodeError
| EOFError
| OtherException (name : string)      (* any other subclass of Exception *)
| KeyboardInterrupt
| CancelledError
| OtherBaseException (name : string). (* SystemExit, GeneratorExit, ... *)

Record exn : Type := mkExn { exc_class : exn_class; exc_msg : string }.

(** [isinstance(e, Exception)]: what [except Exception] catches.
    [asyncio.CancelledError] derives from [BaseException]. *)
Definition is_Exception (e : exn) : bool :=
  match exc_class e with
  | KeyboardInterrupt | CancelledError | OtherBaseException _ => false
  | _ => true
  end.

(** [str(e)], also what an f-string prints for [e]. *)
Definition exn_str (e : exn) : string := exc_msg e.

(** What a call of a collaborator does: return or raise. *)
Inductive reply (A : Type) : Type :=
| Returns (a : A)
| Raises (e : exn).
Arguments Returns {A} a.
Arguments Raises {A} e.

(** ** Python values *)

#[local] Unset Elimination Schemes.

Inductive pyval : Type :=
| PNone
| PBool (b : bool)
| PInt (z : Z)
| PFloat (lit : string)
| PStr (s : string)
| PList (items : list pyval)
| PDict (entries : list (string * pyval))
| PObj (cls str_text repr_text : string) (model_dump : option pyval).

#[local] Set Elimination Schemes.

(** [PFloat lit] is a float whose [repr] is [lit].  [PDict] keeps the
    insertion order of a [dict]; its keys are strings.  [PObj] is an instance
    of any other class [cls]: [str_text] and [repr_text] are what [str()] and
    [repr()] give, [model_dump] what its [model_dump()] method returns when it
    has one (pydantic models). *)

Definition is_str (v : pyval) : bool :=
  match v with PStr _ => true | _ => false end.

Definition is_dict (v : pyval) : bool :=
  match v with PDict _ => true | _ => false end.

(** [hasattr(v, 'model_dump')] *)
Definition has_model_dump (v : pyval) : bool :=
  match v with PObj _ _ _ (Some _) => true | _ => false end.

(** Induction through the lists, dicts and [model_dump] results. *)
Section PyvalInd.
Variable P : pyval -> Prop.
Hypothesis HNone : P PNone.
Hypothesis HBool : forall b, P (PBool b).
Hypothesis HInt : forall z, P (PInt z).
Hypothesis HFloat : forall l, P (PFloat l).
Hypothesis HStr : forall s, P (PStr s).
Hypothesis HList : forall l, Forall P l -> P (PList l).
Hypothesis HDict : forall d, Forall (fun kv => P (snd kv)) d -> P (PDict d).
Hypothesis HObj : forall c s r o,
    match o with Some v => P v | None => True end -> P (PObj c s r o).

Fixpoint pyval_ind (v : pyval) : P v :=
  match v return P v with
  | PNone => HNone
  | PBool b => HBool b
  | PInt z => HInt z
  | PFloat l => HFloat l
  | PStr s => HStr s
  | PList l =>
      HList l ((fix go (l : list pyval) : Forall P l :=
                  match l with
                  | [] => Forall_nil _
                  | x :: l' => Forall_cons _ (pyval_ind x) (go l')
                  end) l)
  | PDict d =>
      HDict d ((fix go (d : list (string * pyval)) :
                  Forall (fun kv => P (snd kv)) d :=
                  match d with
                  | [] => Forall_nil _
                  | (k, x) :: d' =>
                      Forall_cons (k, x) (pyval_ind x) (go d')
                  end) d)
  | PObj c s r o =>
      HObj c s r o
           (match o return match o with Some v => P v | None => True end with
            | Some w => pyval_ind w
            | None => I
            end)
  end.
End PyvalInd.

(** *** [str()] and [repr()] *)

Module Repr.

(** [repr] of one character inside a string quoted by [q].  Bytes of
    non-ASCII characters are copied (they are taken to be printable). *)
Definition repr_char (q c : ascii) : string :=
  let n := N_of_ascii c in
  if Ascii.eqb c q || Ascii.eqb c "\" then String "\" (String c "")
  else if (n =? 9)%N then "\t"
  else if (n =? 10)%N then "\n"
  else if (n =? 13)%N then "\r"
  else if ((n <? 32) || (n =? 127))%N then "\x" ++ Str.hex2 c
  else String c "".

Fixpoint repr_chars (q : ascii) (s : string) : string :=
  match s with
  | EmptyString => EmptyString
  | String c s' => repr_char q c ++ repr_chars q s'
  end.

(** [repr(s)] for a [str]: single quotes unless the text has a single
    quote and no double quote. *)
Definition repr_str (s : string) : string :=
  let q := if Str.mem "'" s && negb (Str.mem dquote s) then dquote else "'"%char in
  String q (repr_chars q s ++ String q "").

(** [str(z)] for an [int] *)
Definition int_str (z : Z) : string := NilZero.string_of_int (Z.to_int z).

Fixpoint repr (v : pyval) : string :=
  match v with
  | PNone => "None"
  | PBool true => "True"
  | PBool false => "False"
  | PInt z => int_str z
  | PFloat lit => lit
  | PStr s => repr_str s
  | PList l => "[" ++ Str.join ", " (map repr l) ++ "]"
  | PDict d =>
      "{" ++ Str.join ", "
              (map (fun kv => repr_str (fst kv) ++ ": " ++ repr (snd kv)) d)
          ++ "}"
  | PObj _ _ r _ => r
  end.

(** [str(v)] *)
Definition str (v : pyval) : string :=
  match v with
  | PStr s => s
  | PObj _ s _ _ => s
  | _ => repr v
  end.

End Repr.

(** ** The [json] module

    [loads] follows the decoder of CPython ([json.decoder], [json.scanner]),
    [encode] its encoder.  The text of a [JSONDecodeError] is kept without
    the position suffix.  Limits of the interpreter (recursion depth, number
    of digits of an [int] conversion) are not modelled. *)

Module Json.

Definition decode_error (msg : string) : exn := mkExn JSONDecodeError msg.

(** *** Encoder: [json.dumps(v, ensure_ascii=False, separators=...)] *)

(** [ESCAPE_DCT]: quote, backslash, the named control characters, and
    [\u00XX] for the other characters below U+0020. *)
Definition escape_char (c : ascii) : string :=
  let n := N_of_ascii c in
  if Ascii.eqb c dquote then String "\" (String dquote "")
  else if Ascii.eqb c "\" then "\\"
  else if (n =? 10)%N then "\n"
  else if (n =? 13)%N then "\r"
  else if (n =? 9)%N then "\t"
  else if (n =? 8)%N then "\b"
  else if (n =? 12)%N then "\f"
  else if (n <? 32)%N then "\u00" ++ Str.hex2 c
  else String c "".

Fixpoint escape (s : string) : string :=
  match s with
  | EmptyString => EmptyString
  | String c s' => escape_char c ++ escape s'
  end.

(** [encode_basestring] *)
Definition encode_basestring (s : string) : string :=
  String dquote (escape s ++ String dquote "").

(** [float.__repr__], with the names the encoder gives to the special
    values. *)
Definition floatstr (lit : string) : string :=
  if String.eqb lit "nan" then "NaN"
  else if String.eqb lit "inf" then "Infinity"
  else if String.eqb lit "-inf" then "-Infinity"
  else lit.

Section Encoder.
Variables item_separator key_separator : string.

(** The text the encoder builds; for an object of another class, which
    the encoder refuses (see [find_unserializable]), the empty text. *)
Fixpoint encode (v : pyval) : string :=
  match v with
  | PNone => "null"
  | PBool true => "true"
  | PBool false => "false"
  | PInt z => Repr.int_str z
  | PFloat lit => floatstr lit
  | PStr s => encode_basestring s
  | PList l => "[" ++ Str.join item_separator (map encode l) ++ "]"
  | PDict d =>
      "{" ++ Str.join item_separator
              (map (fun kv => encode_basestring (fst kv)
                              ++ key_separator ++ encode (snd kv)) d)
          ++ "}"
  | PObj _ _ _ _ => ""
  end.
End Encoder.

(** The class of the first value, in the order the encoder visits them,
    that it cannot serialize. *)
Fixpoint find_unserializable (v : pyval) : option string :=
  match v with
  | PList l =>
      (fix go (l : list pyval) : option string :=
         match l with
         | [] => None
         | x :: l' =>
             match find_unserializable x with
             | Some c => Some c
             | None => go l'
             end
         end) l
  | PDict d =>
      (fix go (d : list (string * pyval)) : option string :=
         match d with
         | [] => None
         | (_, x) :: d' =>
             match find_unserializable x with
             | Some c => Some c
             | None => go d'
             end
         end) d
  | PObj c _ _ _ => Some c
  | _ => None
  end.

Definition dumps_with (item_separator key_separator : string) (v : pyval)
  : reply string :=
  match find_unserializable v with
  | Some c =>
      Raises (mkExn TypeError
                    ("Object of type " ++ c ++ " is not JSON serializable"))
  | None => Returns (encode item_separator key_separator v)
  end.

(** [json.dumps(v, ensure_ascii=False)] *)
Definition dumps (v : pyval) : reply string := dumps_with ", " ": " v.

(** *** Decoder: [json.loads(s)] for a [str] *)

(** [WHITESPACE]: space, tab, line feed, carriage return *)
Definition is_ws (c : ascii) : bool :=
  let n := N_of_ascii c in
  ((n =? 32) || (n =? 9) || (n =? 10) || (n =? 13))%N.

Fixpoint skip_ws (s : string) : string :=
  match s with
  | String c s' => if is_ws c then skip_ws s' else s
  | EmptyString => s
  end.

Definition is_digit (c : ascii) : bool :=
  let n := N_of_ascii c in ((48 <=? n) && (n <=? 57))%N.

Definition hex_val (c : ascii) : option N :=
  let n := N_of_ascii c in
  if ((48 <=? n) && (n <=? 57))%N then Some (n - 48)%N
  else if ((97 <=? n) && (n <=? 102))%N then Some (n - 87)%N
  else if ((65 <=? n) && (n <=? 70))%N then Some (n - 55)%N
  else None.

(** Value of four hexadecimal digits. *)
Definition hex4 (a b c d : ascii) : option N :=
  match hex_val a, hex_val b, hex_val c, hex_val d with
  | Some x, Some y, Some z, Some w => Some (((x * 16 + y) * 16 + z) * 16 + w)%N
  | _, _, _, _ => None
  end.

(** UTF-8 bytes of a code point (a lone surrogate is encoded like any
    other three-byte code point). *)
Definition utf8 (n : N) : string :=
  let b := Str.byte in
  (if n <? 128 then String (b n) ""
   else if n <? 2048 then
     String (b (192 + n / 64)) (String (b (128 + n mod 64)) "")
   else if n <? 65536 then
     String (b (224 + n / 4096))
            (String (b (128 + (n / 64) mod 64)) (String (b (128 + n mod 64)) ""))
   else
     String (b (240 + n / 262144))
            (String (b (128 + (n / 4096) mod 64))
                    (String (b (128 + (n / 64) mod 64))
                            (String (b (128 + n mod 64)) ""))))%N.

(** [BACKSLASH]: the one-letter escapes *)
Definition unescape (c : ascii) : option ascii :=
  if Ascii.eqb c dquote then Some dquote
  else if Ascii.eqb c "\" then Some "\"%char
  else if Ascii.eqb c "/" then Some "/"%char
  else if Ascii.eqb c "b" then Some (Str.byte 8)
  else if Ascii.eqb c "f" then Some (Str.byte 12)
  else if Ascii.eqb c "n" then Some (Str.byte 10)
  else if Ascii.eqb c "r" then Some (Str.byte 13)
  else if Ascii.eqb c "t" then Some (Str.byte 9)
  else None.

Definition is_high_surrogate (n : N) : bool := ((55296 <=? n) && (n <=? 56319))%N.
Definition is_low_surrogate (n : N) : bool := ((56320 <=? n) && (n <=? 57343))%N.

Definition cons_text (t : string) (r : reply (string * string))
  : reply (string * string) :=
  match r with
  | Returns (text, rest) => Returns (t ++ text, rest)
  | Raises e => Raises e
  end.

(** [scanstring] (strict, the C scanner), from the character after the
    opening quote: the decoded text and what follows the closing quote.
    The scanner wants a character after the four digits of an escape, and
    pairs a high surrogate with a following escape only when a character
    follows that one too. *)
Fixpoint scanstring (s : string) : reply (string * string) :=
  match s with
  | EmptyString => Raises (decode_error "Unterminated string starting at")
  | String c s1 =>
      if Ascii.eqb c dquote then Returns ("", s1)
      else if Ascii.eqb c "\" then
        match s1 with
        | EmptyString => Raises (decode_error "Unterminated string starting at")
        | String e s2 =>
            if Ascii.eqb e "u" then
              match s2 with
              | String h1 (String h2 (String h3 (String h4 (String _ _ as s3)))) =>
                  match hex4 h1 h2 h3 h4 with
                  | None => Raises (decode_error "Invalid \uXXXX escape")
                  | Some uni =>
                      if is_high_surrogate uni then
                        match s3 with
                        | String b (String u
                            (String l1 (String l2 (String l3 (String l4
                               (String _ _ as s5)))))) =>
                            if Ascii.eqb b "\" && Ascii.eqb u "u" then
                              match hex4 l1 l2 l3 l4 with
                              | None =>
                                  Raises (decode_error "Invalid \uXXXX escape")
                              | Some uni2 =>
                                  if is_low_surrogate uni2 then
                                    cons_text
                                      (utf8 (65536 + (uni - 55296) * 1024
                                             + (uni2 - 56320))%N)
                                      (scanstring s5)
                                  else cons_text (utf8 uni) (scanstring s3)
                              end
                            else cons_text (utf8 uni) (scanstring s3)
                        | _ => cons_text (utf8 uni) (scanstring s3)
                        end
                      else cons_text (utf8 uni) (scanstring s3)
                  end
              | _ => Raises (decode_error "Invalid \uXXXX escape")
              end
            else
              match unescape e with
              | Some x => cons_text (String x "") (scanstring s2)
              | None => Raises (decode_error "Invalid \escape")
              end
        end
      else if (N_of_ascii c <? 32)%N then
        Raises (decode_error "Invalid control character at")
      else cons_text (String c "") (scanstring s1)
  end.

(** The longest prefix of digits, and the rest. *)
Fixpoint span_digits (s : string) : string * string :=
  match s with
  | String c s' =>
      if is_digit c then
        let (ds, r) := span_digits s' in (String c ds, r)
      else ("", s)
  | EmptyString => ("", "")
  end.

(** [NUMBER_RE], integer part: a zero, or a non-zero digit and digits *)
Definition int_part (s : string) : option (string * string) :=
  match s with
  | String c s' =>
      if Ascii.eqb c "0" then Some ("0", s')
      else if is_digit c then
        let (ds, r) := span_digits s' in Some (String c ds, r)
      else None
  | EmptyString => None
  end.

(** [NUMBER_RE], fraction: a point and at least one digit *)
Definition frac_part (s : string) : option (string * string) :=
  match s with
  | String c s' =>
      if Ascii.eqb c "." then
        match span_digits s' with
        | (EmptyString, _) => None
        | (ds, r) => Some (String c ds, r)
        end
      else None
  | EmptyString => None
  end.

(** [NUMBER_RE], exponent: [e] or [E], an optional sign, at least one
    digit *)
Definition exp_part (s : string) : option (string * string) :=
  match s with
  | String c s' =>
      if Ascii.eqb c "e" || Ascii.eqb c "E" then
        let (sign, s2) :=
          match s' with
          | String d r =>
              if Ascii.eqb d "-" || Ascii.eqb d "+" then (String d "", r)
              else ("", s')
          | EmptyString => ("", s')
          end in
        match span_digits s2 with
        | (EmptyString, _) => None
        | (ds, r) => Some (String c (sign ++ ds), r)
        end
      else None
  | EmptyString => None
  end.

(** [match_number]: an [int] when there is neither fraction nor exponent,
    a [float] otherwise. *)
Definition match_number (s : string) : option (pyval * string) :=
  let (neg, s1) :=
    match s with
    | String c s' => if Ascii.eqb c "-" then (true, s') else (false, s)
    | EmptyString => (false, s)
    end in
  match int_part s1 with
  | None => None
  | Some (ds, r) =>
      let (frac, r1) :=
        match frac_part r with Some (f, r') => (f, r') | None => ("", r) end in
      let (exp, r2) :=
        match exp_part r1 with Some (x, r') => (x, r') | None => ("", r1) end in
      match frac ++ exp with
      | EmptyString =>
          match NilEmpty.uint_of_string ds with
          | Some d =>
              Some (PInt (Z.of_int (if neg then Decimal.Neg d else Decimal.Pos d)), r2)
          | None => None
          end
      | _ => Some (PFloat ((if neg then "-" else "") ++ ds ++ frac ++ exp), r2)
      end
  end.

(** [null], [true], [false], numbers, [NaN], [Infinity], [-Infinity] *)
Definition scan_constant (s : string) : reply (pyval * string) :=
  if Str.is_prefix "null" s then Returns (PNone, Str.drop 4 s)
  else if Str.is_prefix "true" s then Returns (PBool true, Str.drop 4 s)
  else if Str.is_prefix "false" s then Returns (PBool false, Str.drop 5 s)
  else
    match match_number s with
    | Some r => Returns r
    | None =>
        if Str.is_prefix "NaN" s then Returns (PFloat "nan", Str.drop 3 s)
        else if Str.is_prefix "Infinity" s then Returns (PFloat "inf", Str.drop 8 s)
        else if Str.is_prefix "-Infinity" s then Returns (PFloat "-inf", Str.drop 9 s)
        else Raises (decode_error "Expecting value")
    end.

Definition expecting_name : exn :=
  decode_error "Expecting property name enclosed in double quotes".
Definition expecting_comma : exn := decode_error "Expecting ',' delimiter".
Definition expecting_colon : exn := decode_error "Expecting ':' delimiter".

(** Raised when the fuel runs out; [loads] gives enough of it (see
    [JsonFacts.loads_raises_decode_error]). *)
Definition recursion_error : exn :=
  mkExn (OtherException "RecursionError") "maximum recursion depth exceeded".

(** [scan_once], [JSONArray] and [JSONObject].  [array_items] starts at the
    first character of an item, [object_pairs] just after the quote that
    opens a key. *)
Fixpoint scan_once (fuel : nat) (s : string) {struct fuel}
  : reply (pyval * string) :=
  match fuel with
  | O => Raises recursion_error
  | S fuel' =>
      match s with
      | EmptyString => Raises (decode_error "Expecting value")
      | String c s' =>
          if Ascii.eqb c dquote then
            match scanstring s' with
            | Returns (text, rest) => Returns (PStr text, rest)
            | Raises e => Raises e
            end
          else if Ascii.eqb c "{" then
            match skip_ws s' with
            | String c1 s2 =>
                if Ascii.eqb c1 "}" then Returns (PDict [], s2)
                else if Ascii.eqb c1 dquote then
                  match object_pairs fuel' s2 with
                  | Returns (pairs, rest) =>
                      Returns (PDict (Dict.of_pairs pairs), rest)
                  | Raises e => Raises e
                  end
                else Raises expecting_name
            | EmptyString => Raises expecting_name
            end
          else if Ascii.eqb c "[" then
            match skip_ws s' with
            | String c1 s2 =>
                if Ascii.eqb c1 "]" then Returns (PList [], s2)
                else
                  match array_items fuel' (String c1 s2) with
                  | Returns (vs, rest) => Returns (PList vs, rest)
                  | Raises e => Raises e
                  end
            | EmptyString => Raises (decode_error "Expecting value")
            end
          else scan_constant s
      end
  end
with array_items (fuel : nat) (s : string) {struct fuel}
  : reply (list pyval * string) :=
  match fuel with
  | O => Raises recursion_error
  | S fuel' =>
      match scan_once fuel' s with
      | Raises e => Raises e
      | Returns (v, rest) =>
          match skip_ws rest with
          | String c r =>
              if Ascii.eqb c "]" then Returns ([v], r)
              else if Ascii.eqb c "," then
                match array_items fuel' (skip_ws r) with
                | Returns (vs, r') => Returns (v :: vs, r')
                | Raises e => Raises e
                end
              else Raises expecting_comma
          | EmptyString => Raises expecting_comma
          end
      end
  end
with object_pairs (fuel : nat) (s : string) {struct fuel}
  : reply (list (string * pyval) * string) :=
  match fuel with
  | O => Raises recursion_error
  | S fuel' =>
      match scanstring s with
      | Raises e => Raises e
      | Returns (key, rest) =>
          match skip_ws rest with
          | String c r =>
              if Ascii.eqb c ":" then
                match scan_once fuel' (skip_ws r) with
                | Raises e => Raises e
                | Returns (v, rest') =>
                    match skip_ws rest' with
                    | String c' r' =>
                        if Ascii.eqb c' "}" then Returns ([(key, v)], r')
                        else if Ascii.eqb c' "," then
                          match skip_ws r' with
                          | String q r2 =>
                              if Ascii.eqb q dquote then
                                match object_pairs fuel' r2 with
                                | Returns (ps, r3) => Returns ((key, v) :: ps, r3)
                                | Raises e => Raises e
                                end
                              else Raises expecting_name
                          | EmptyString => Raises expecting_name
                          end
                        else Raises expecting_comma
                    | EmptyString => Raises expecting_comma
                    end
                end
              else Raises expecting_colon
          | EmptyString => Raises expecting_colon
          end
      end
  end.

(** The UTF-8 bytes of U+FEFF *)
Definition BOM : string :=
  String (Str.byte 239) (String (Str.byte 187) (String (Str.byte 191) "")).

(** [json.loads(s)]: [JSONDecoder.decode] *)
Definition loads (s : string) : reply pyval :=
  if Str.is_prefix BOM s then
    Raises (decode_error "Unexpected UTF-8 BOM (decode using utf-8-sig)")
  else
    match scan_once (S (2 * String.length s)) (skip_ws s) with
    | Raises e => Raises e
    | Returns (v, rest) =>
        match skip_ws rest with
        | EmptyString => Returns v
        | String _ _ => Raises (decode_error "Extra data")
        end
    end.

End Json.

(** Test texts are written with [`] where the text has a double quote. *)
Fixpoint dq (s : string) : string :=
  match s with
  | EmptyString => EmptyString
  | String c s' => String (if Ascii.eqb c "`" then dquote else c) (dq s')
  end.

(** ** Data exchanged with the collaborators *)

(** [mcp.types.Tool]: an entry of the catalog *)
Record Tool : Type := mkTool {
  tool_name : string;
  tool_description : pyval;
  tool_inputSchema : pyval
}.

(** An entry of the [tools] argument of the chat model:
    [{type: function, function: {name, description, input_schema}}] *)
Record FunctionDecl : Type := mkFunctionDecl {
  fn_name : string;
  fn_description : pyval;
  fn_input_schema : pyval
}.

(** A tool call of an assistant message: [tool_call.id],
    [tool_call.function.name], [tool_call.function.arguments] *)
Record ToolCall : Type := mkToolCall {
  tc_id : string;
  tc_name : string;
  tc_arguments : pyval
}.

(** [choice.message] of the chat model: [content] may be [None],
    [tool_calls] may be absent, [None] or a list. *)
Record ChatMessage : Type := mkChatMessage {
  msg_content : option string;
  msg_tool_calls : option (list ToolCall)
}.

(** The response of the chat model: the messages of its [choices]. *)
Definition ChatCompletion : Type := list ChatMessage.

(** The entries of [messages], the conversation sent to the chat model. *)
Inductive message : Type :=
| UserMessage (content : string)
| AssistantMessage (content : option string) (tool_calls : list ToolCall)
| ToolMessage (tool_call_id : string) (content : string).

(** An object seen through its attributes (the result of a tool call). *)
Definition pyobject : Type := list (string * pyval).

(** ** Collaborators

    The chat model client, the MCP session and its SSE connection, the
    file system, the environment and the terminal.  Each call takes the
    world and gives the world after it and a reply. *)

Class Collaborators : Type := {
  World : Type;
  (** [os.getenv(name)] *)
  getenv : World -> string -> option string;
  (** [open(path).read()] *)
  read_file : World -> string -> World * reply string;
  (** [deepseekClient.chat.completions.create(model, messages, tools)] *)
  chat_create : World -> list message -> list FunctionDecl
                -> World * reply ChatCompletion;
  (** [sse_client(url).__aenter__()] and [__aexit__] *)
  sse_enter : World -> pyval -> World * reply unit;
  sse_exit : World -> World * reply unit;
  (** [ClientSession(read, write).__aenter__()] and [__aexit__] *)
  session_enter : World -> World * reply unit;
  session_exit : World -> World * reply unit;
  (** [session.initialize()], [session.list_tools().tools],
      [session.call_tool(name, args)] *)
  session_initialize : World -> World * reply unit;
  session_list_tools : World -> World * reply (list Tool);
  session_call_tool : World -> string -> pyval -> World * reply pyobject;
  (** [input(prompt)] *)
  input : World -> string -> World * reply string
}.

(** ** Computations *)

(** How a computation ends: it returns, it raises, or the fuel given to a
    [while True] loop ran out before the loop ended. *)
Inductive outcome (A : Type) : Type :=
| Return (a : A)
| Raise (e : exn)
| OutOfFuel.
Arguments Return {A} a.
Arguments Raise {A} e.
Arguments OutOfFuel {A}.

Section Model.
Context {C : Collaborators}.

(** The state a computation runs in: the world, what was printed, and
    [messages], the local variable of the running [process_query] (the
    conversation state). *)
Record state : Type := mkState {
  world : World;
  stdout : list string;
  messages : list message
}.

Definition M (A : Type) : Type := state -> state * outcome A.

Definition ret {A} (a : A) : M A := fun st => (st, Return a).

Definition raise {A} (e : exn) : M A := fun st => (st, Raise e).

Definition out_of_fuel {A} : M A := fun st => (st, OutOfFuel).

Definition bind {A B} (m : M A) (k : A -> M B) : M B :=
  fun st =>
    match m st with
    | (st', Return a) => k a st'
    | (st', Raise e) => (st', Raise e)
    | (st', OutOfFuel) => (st', OutOfFuel)
    end.

Notation "x <- m ;; k" := (bind m (fun x => k))
  (at level 61, m at next level, right associativity).
Notation "m ;;; k" := (bind m (fun _ => k))
  (at level 61, right associativity).

(** A value or an exception computed without the world. *)
Definition of_reply {A} (r : reply A) : M A :=
  match r with
  | Returns a => ret a
  | Raises e => raise e
  end.

(** A call of a collaborator. *)
Definition call {A} (f : World -> World * reply A) : M A :=
  fun st =>
    let (w, r) := f (world st) in
    of_reply r (mkState w (stdout st) (messages st)).

(** [print(line)] *)
Definition print (line : string) : M unit :=
  fun st => (mkState (world st) (stdout st ++ [line])%list (messages st), Return tt).

Definition get_messages : M (list message) :=
  fun st => (st, Return (messages st)).

Definition set_messages (l : list message) : M unit :=
  fun st => (mkState (world st) (stdout st) l, Return tt).

(** [messages.append(m)] *)
Definition append_message (m : message) : M unit :=
  fun st => (mkState (world st) (stdout st) (messages st ++ [m])%list, Return tt).

(** [try: body / except Exception as e: handler(e)] *)
Definition try_except {A} (body : M A) (handler : exn -> M A) : M A :=
  fun st =>
    match body st with
    | (st', Raise e) => if is_Exception e then handler e st' else (st', Raise e)
    | r => r
    end.

(** [try: body / except classes: handler] for classes given by a test *)
Definition try_except_when {A} (caught : exn -> bool) (body : M A)
           (handler : exn -> M A) : M A :=
  fun st =>
    match body st with
    | (st', Raise e) => if caught e then handler e st' else (st', Raise e)
    | r => r
    end.

(** [try: body / finally: final] where [final] does not raise *)
Definition try_finally {A} (body : M A) (final : M unit) : M A :=
  fun st =>
    match body st with
    | (st', OutOfFuel) => (st', OutOfFuel)
    | (st', r) =>
        match final st' with
        | (st2, Return _) => (st2, r)
        | (st2, Raise e) => (st2, Raise e)
        | (st2, OutOfFuel) => (st2, OutOfFuel)
        end
    end.

(** [for x in l: body(x)] *)
Fixpoint for_each {A} (l : list A) (body : A -> M unit) : M unit :=
  match l with
  | [] => ret tt
  | x :: l' => body x ;;; for_each l' body
  end.

(** [o.name] *)
Definition getattr (o : pyobject) (name : string) : reply pyval :=
  match Dict.get name o with
  | Some v => Returns v
  | None =>
      Raises (mkExn AttributeError
                    ("object has no attribute '" ++ name ++ "'"))
  end.

(** [v[key]] for a string key *)
Definition subscript (v : pyval) (key : string) : reply pyval :=
  match v with
  | PDict d =>
      match Dict.get key d with
      | Some x => Returns x
      | None => Raises (mkExn KeyError (Repr.repr_str key))
      end
  | PStr _ => Raises (mkExn TypeError "string indices must be integers")
  | PList _ =>
      Raises (mkExn TypeError "list indices must be integers or slices, not str")
  | _ => Raises (mkExn TypeError "object is not subscriptable")
  end.

(** The place of the first [None] of a list, counted from [n]. *)
Fixpoint first_none (n : nat) (l : list (option string)) : option nat :=
  match l with
  | [] => None
  | None :: _ => Some n
  | Some _ :: l' => first_none (S n) l'
  end.

(** [sep.join(l)] where an item may be [None] *)
Definition join_items (sep : string) (l : list (option string)) : reply string :=
  match first_none 0 l with
  | Some i =>
      Raises (mkExn TypeError
                    ("sequence item " ++ Repr.int_str (Z.of_nat i)
                     ++ ": expected str instance, NoneType found"))
  | None =>
      Returns (Str.join sep (flat_map (fun o => match o with
                                                | Some s => [s]
                                                | None => []
                                                end) l))
  end.

(** [str(n)] for a length *)
Definition nat_str (n : nat) : string := Repr.int_str (Z.of_nat n).

(** The line feed character, and a text made of it. *)
Definition LF : string := String (Str.byte 10) "".

(** ** [mcpserverconnector.py] *)

(** The fields of an [MCPServerConnector].  The session and the two context
    managers are the ones of the world; a field records whether it is set. *)
Record MCPServerConnector : Type := mkConnector {
  session : option unit;
  tools : list (string * Tool);
  _sse_cm : option unit;
  _sse_streams : option unit;
  _session_cm : option unit
}.

(** [MCPServerConnector.__init__] *)
Definition MCPServerConnector_init : MCPServerConnector :=
  mkConnector None [] None None None.

(** [MCPServerConnector.__aenter__]: the connector with the fields set. *)
Definition __aenter__ (self : MCPServerConnector) : M MCPServerConnector :=
  text <- call (fun w => read_file w "mcp.json") ;;
  config <- of_reply (Json.loads text) ;;
  servers <- of_reply (subscript config "mcpServers") ;;
  server <- of_reply (subscript servers "amap-amap-sse") ;;
  url <- of_reply (subscript server "url") ;;
  print ("[LOG] 尝试连接到 MCP Server: " ++ Repr.str url) ;;;
  call (fun w => sse_enter w url) ;;;
  print "[LOG] SSE 流已获取。" ;;;
  call session_enter ;;;
  print "[LOG] ClientSession 已创建。" ;;;
  call session_initialize ;;;
  print "[LOG] Session 已初始化。" ;;;
  response <- call session_list_tools ;;
  let tools := Dict.of_pairs (map (fun tool => (tool_name tool, tool)) response) in
  print ("[LOG] 成功获取 " ++ nat_str (List.length tools) ++ " 个工具。") ;;;
  print "[LOG] 连接成功并准备就绪。" ;;;
  ret (mkConnector (Some tt) tools (Some tt) (Some tt) (Some tt)).

(** [MCPServerConnector.__aexit__]; it returns [None]. *)
Definition __aexit__ (self : MCPServerConnector) : M unit :=
  print "[LOG] 正在关闭 MCPServerConnector 资源..." ;;;
  (match _session_cm self with
   | Some _ =>
       call session_exit ;;;
       print "[LOG] ClientSession 已关闭。"
   | None => ret tt
   end) ;;;
  (match _sse_cm self with
   | Some _ =>
       call sse_exit ;;;
       print "[LOG] SSE 连接已关闭。"
   | None => ret tt
   end).

(** [async with MCPServerConnector() as connector: body(connector)].
    [__aexit__] runs when the body returns or raises; its result is [None],
    so an exception of the body is raised again after it. *)
Definition async_with_connector {A} (body : MCPServerConnector -> M A) : M A :=
  fun st =>
    match __aenter__ MCPServerConnector_init st with
    | (st1, Return connector) =>
        match body connector st1 with
        | (st2, Return a) =>
            match __aexit__ connector st2 with
            | (st3, Return _) => (st3, Return a)
            | (st3, Raise e) => (st3, Raise e)
            | (st3, OutOfFuel) => (st3, OutOfFuel)
            end
        | (st2, Raise e) =>
            match __aexit__ connector st2 with
            | (st3, Return _) => (st3, Raise e)
            | (st3, Raise e') => (st3, Raise e')
            | (st3, OutOfFuel) => (st3, OutOfFuel)
            end
        | (st2, OutOfFuel) => (st2, OutOfFuel)
        end
    | (st1, Raise e) => (st1, Raise e)
    | (st1, OutOfFuel) => (st1, OutOfFuel)
    end.

(** ** [client.py] *)

(** The fields of an [MCPClient] ([deepseekClient] is the chat model client
    of the world). *)
Record MCPClient : Type := mkClient {
  connector : option MCPServerConnector
}.

(** [MCPClient.__init__] *)
Definition MCPClient_init : M MCPClient :=
  fun st =>
    match getenv (world st) "DEEPSEEK_API_KEY" with
    | None | Some EmptyString =>
        raise (mkExn RuntimeError
                     "DEEPSEEK_API_KEY not set in environment variables.") st
    | Some _ =>
        (print "[LOG] MCPClient 初始化完成。" ;;; ret (mkClient None)) st
    end.

(** [MCPClient.build_tools_for_deepseek] *)
Definition build_tools_for_deepseek (self : MCPClient) : M (list FunctionDecl) :=
  match connector self with
  | None =>
      raise (mkExn AttributeError "'NoneType' object has no attribute 'tools'")
  | Some c =>
      ret (map (fun tool => mkFunctionDecl (tool_name tool)
                                            (tool_description tool)
                                            (tool_inputSchema tool))
               (Dict.values (tools c)))
  end.

(** The object [call_tool] builds when the remote call raises: a class
    made on the spot, with the one attribute [content]. *)
Definition fault_result (e : exn) : pyobject :=
  [("content", PStr ("[工具调用异常] " ++ exn_str e))].

Definition session_not_initialized : exn :=
  mkExn RuntimeError "MCP session not initialized.".

(** [MCPClient.call_tool] *)
Definition call_tool (self : MCPClient) (tool_name : string) (tool_args : pyval)
  : M pyobject :=
  match connector self with
  | None => raise session_not_initialized
  | Some c =>
      match session c with
      | None => raise session_not_initialized
      | Some _ =>
          print ("[LOG] 调用 MCP 工具: " ++ tool_name ++ ", 参数: "
                 ++ Repr.str tool_args) ;;;
          try_except
            (call (fun w => session_call_tool w tool_name tool_args))
            (fun e =>
               print ("[ERROR] 工具调用异常: " ++ exn_str e) ;;;
               ret (fault_result e))
      end
  end.

(** Lines 85-92 of [process_query]: [tool_args] from
    [tool_call.function.arguments]. *)
Definition normalize_arguments (arguments : pyval) : reply pyval :=
  match arguments with
  | PObj _ _ _ (Some dump) => Returns dump
  | PStr s => Json.loads s
  | _ => Returns arguments
  end.

(** Lines 99-105 of [process_query]: the text of [tool_result.content]. *)
Definition normalize_content (content : pyval) : reply string :=
  let content :=
    match content with
    | PObj _ _ _ (Some dump) => dump
    | PStr _ | PDict _ => content
    | _ => PStr (Repr.str content)
    end in
  match content with
  | PStr s => Returns s
  | _ => Json.dumps content
  end.

(** Lines 85-111 of [process_query]: the body of the loop over the tool
    calls. *)
Definition handle_tool_call (self : MCPClient) (tool_call : ToolCall) : M unit :=
  tool_args <- of_reply (normalize_arguments (tc_arguments tool_call)) ;;
  let tool_name := tc_name tool_call in
  tool_result <- call_tool self tool_name tool_args ;;
  content <- of_reply (getattr tool_result "content") ;;
  content <- of_reply (normalize_content content) ;;
  append_message (ToolMessage (tc_id tool_call) content) ;;;
  print ("[LOG] 工具 " ++ tool_name ++ " 返回: " ++ content).

(** [response.choices[0].message] *)
Definition first_choice (response : ChatCompletion) : reply ChatMessage :=
  match response with
  | m :: _ => Returns m
  | [] => Raises (mkExn IndexError "list index out of range")
  end.

(** Lines 68-119 of [process_query]: the [while True] loop, from a response
    of the chat model; it gives [final_text]. *)
Fixpoint query_loop (fuel : nat) (self : MCPClient) (tools : list FunctionDecl)
         (response : ChatCompletion) (final_text : list (option string))
  : M (list (option string)) :=
  match fuel with
  | O => out_of_fuel
  | S fuel' =>
      msg <- of_reply (first_choice response) ;;
      match msg_tool_calls msg with
      | None | Some [] => ret (final_text ++ [msg_content msg])%list
      | Some tool_calls =>
          append_message (AssistantMessage (msg_content msg) tool_calls) ;;;
          for_each tool_calls (handle_tool_call self) ;;;
          conversation <- get_messages ;;
          response' <- call (fun w => chat_create w conversation tools) ;;
          query_loop fuel' self tools response' final_text
      end
  end.

(** [MCPClient.process_query] *)
Definition process_query (fuel : nat) (self : MCPClient) (query : string)
  : M string :=
  set_messages [UserMessage query] ;;;
  tools <- build_tools_for_deepseek self ;;
  conversation <- get_messages ;;
  response <- call (fun w => chat_create w conversation tools) ;;
  final_text <- query_loop fuel self tools response [] ;;
  of_reply (join_items LF final_text).

(** How an iteration of the loop of [chat_loop] ends. *)
Inductive loop_exit : Type := Break | Continue.

(** Lines 130-138 of [chat_loop]: one iteration. *)
Definition chat_step (fuel : nat) (self : MCPClient) : M loop_exit :=
  try_except
    (line <- call (fun w => input w (LF ++ "Query: ")) ;;
     let query := Str.strip line in
     if String.eqb (Str.lower query) "quit" then
       print "[LOG] 用户主动退出。" ;;; ret Break
     else
       response <- process_query fuel self query ;;
       print (LF ++ response) ;;;
       ret Continue)
    (fun e =>
       print (LF ++ "报错了: " ++ exn_str e) ;;;
       print ("[LOG] 异常详情: " ++ exn_str e) ;;;
       ret Continue).

(** The [while True] loop of [chat_loop]: [rounds] bounds the number of
    iterations, [fuel] the loop of each query. *)
Fixpoint chat_rounds (rounds fuel : nat) (self : MCPClient) : M unit :=
  match rounds with
  | O => out_of_fuel
  | S rounds' =>
      r <- chat_step fuel self ;;
      match r with
      | Break => ret tt
      | Continue => chat_rounds rounds' fuel self
      end
  end.

(** [MCPClient.chat_loop] *)
Definition chat_loop (rounds fuel : nat) (self : MCPClient) : M unit :=
  print "[LOG] MCP客户端开始！" ;;;
  print "[LOG] 输入你的问题或者输'quit'退出" ;;;
  chat_rounds rounds fuel self.

Definition is_interrupt (e : exn) : bool :=
  match exc_class e with
  | KeyboardInterrupt | CancelledError => true
  | _ => false
  end.

(** [main] *)
Definition main (rounds fuel : nat) : M unit :=
  client <- MCPClient_init ;;
  try_finally
    (try_except_when is_interrupt
       (async_with_connector
          (fun connector => chat_loop rounds fuel (mkClient (Some connector))))
       (fun _ => print "[LOG] 用户中断，正在优雅退出..."))
    (print "结束了").

End Model.

Arguments state C : clear implicits.
Arguments M C A : clear implicits.

(** ** A scripted world

    Collaborators that replay given replies, for running the model on a
    concrete session: the chat model and the tool server answer from a
    script, the terminal reads given lines (and then is at end of file), and
    the world records what was opened, closed, sent and dispatched. *)

Module Scripted.

Record script : Type := mkWorld {
  environ : list (string * string);
  files : list (string * string);
  chat_script : list (reply ChatCompletion);
  tool_script : list (reply pyobject);
  lines : list (reply string);
  catalog : reply (list Tool);
  session_close : reply unit;
  sse_open : bool;
  session_open : bool;
  sent : list (list message);
  dispatched : list (string * pyval)
}.

Definition script_end : exn :=
  mkExn (OtherException "APIConnectionError") "Connection error.".

Definition pop {A} (l : list (reply A)) : reply A * list (reply A) :=
  match l with
  | r :: l' => (r, l')
  | [] => (Raises script_end, [])
  end.

Definition s_read_file (w : script) (path : string) : script * reply string :=
  match Dict.get path (files w) with
  | Some text => (w, Returns text)
  | None => (w, Raises (mkExn FileNotFoundError ("No such file or directory: " ++ path)))
  end.

Definition s_chat_create (w : script) (conversation : list message)
           (decls : list FunctionDecl) : script * reply ChatCompletion :=
  let (r, rest) := pop (chat_script w) in
  (mkWorld (environ w) (files w) rest (tool_script w) (lines w) (catalog w)
           (session_close w) (sse_open w) (session_open w)
           (sent w ++ [conversation])%list (dispatched w), r).

Definition s_call_tool (w : script) (name : string) (args : pyval)
  : script * reply pyobject :=
  let (r, rest) := pop (tool_script w) in
  (mkWorld (environ w) (files w) (chat_script w) rest (lines w) (catalog w)
           (session_close w) (sse_open w) (session_open w)
           (sent w) (dispatched w ++ [(name, args)])%list, r).

Definition s_input (w : script) (prompt : string) : script * reply string :=
  match lines w with
  | r :: rest =>
      (mkWorld (environ w) (files w) (chat_script w) (tool_script w) rest
               (catalog w) (session_close w) (sse_open w) (session_open w)
               (sent w) (dispatched w), r)
  | [] => (w, Raises (mkExn EOFError "EOF when reading a line"))
  end.

Definition set_open (w : script) (sse sess : bool) : script :=
  mkWorld (environ w) (files w) (chat_script w) (tool_script w) (lines w)
          (catalog w) (session_close w) sse sess (sent w) (dispatched w).

(** Closing the session does what [session_close] says: when it raises, the
    session stays as it was. *)
Definition s_session_exit (w : script) : script * reply unit :=
  match session_close w with
  | Returns _ => (set_open w (sse_open w) false, Returns tt)
  | Raises e => (w, Raises e)
  end.

#[export] Instance collaborators : Collaborators := {|
  World := script;
  getenv := fun w name => Dict.get name (environ w);
  read_file := s_read_file;
  chat_create := s_chat_create;
  sse_enter := fun w _ => (set_open w true (session_open w), Returns tt);
  sse_exit := fun w => (set_open w false (session_open w), Returns tt);
  session_enter := fun w => (set_open w (sse_open w) true, Returns tt);
  session_exit := s_session_exit;
  session_initialize := fun w => (w, Returns tt);
  session_list_tools := fun w => (w, catalog w);
  session_call_tool := s_call_tool;
  input := s_input
|}.

(** A configuration file, a key, one tool in the catalog. *)
Definition base : script :=
  mkWorld [("DEEPSEEK_API_KEY", "sk-test")]
          [("mcp.json",
            dq "{`mcpServers`: {`amap-amap-sse`: {`url`: `https://mcp.example/sse`}}}")]
          [] [] []
          (Returns [mkTool "get_weather" (PStr "Weather of a city")
                           (PDict [("type", PStr "object")])])
          (Returns tt) false false [] [].

Definition with_scripts (chat : list (reply ChatCompletion))
           (tool_replies : list (reply pyobject)) (typed : list (reply string))
           (close : reply unit) : script :=
  mkWorld (environ base) (files base) chat tool_replies typed (catalog base)
          close false false [] [].

Definition start (w : script) : state collaborators := mkState w [] [].

(** A connected client: the connector after [__aenter__]. *)
Definition connected : MCPClient :=
  mkClient (Some (mkConnector (Some tt)
                              (Dict.of_pairs
                                 (match catalog base with
                                  | Returns l => map (fun t => (tool_name t, t)) l
                                  | Raises _ => []
                                  end))
                              (Some tt) (Some tt) (Some tt))).

(** A response of the chat model with text and no tool call, and one with
    tool calls. *)
Definition says (text : string) : reply ChatCompletion :=
  Returns [mkChatMessage (Some text) None].

Definition asks (calls : list ToolCall) : reply ChatCompletion :=
  Returns [mkChatMessage None (Some calls)].

End Scripted.

(** ** Sessions to run *)

Module Scenario.
Import Scripted.

Definition weather_call (id : string) (arguments : pyval) : ToolCall :=
  mkToolCall id "get_weather" arguments.

Definition beijing : pyval := PDict [("city", PStr "Beijing")].

Definition weather_report : pyval :=
  PDict [("temperature", PInt 21); ("condition", PStr "clear")].

Definition answer : string := "It's 21°C and clear in Beijing.".

Definition question : string := "What's the weather in Beijing?".

(** The model asks for the weather with string-form arguments, the tool
    answers with a dict, the model gives the final text. *)
Definition weather : script :=
  with_scripts [asks [weather_call "call_1" (PStr (dq "{`city`:`Beijing`}"))];
                says answer]
               [Returns [("content", weather_report); ("isError", PBool false)]]
               [] (Returns tt).

(** The arguments of the tool call are not JSON. *)
Definition malformed : script :=
  with_scripts [asks [weather_call "call_1" (PStr "{city: Beijing}")];
                says answer]
               [Returns [("content", weather_report)]]
               [] (Returns tt).

(** Two tool calls, the second with arguments that are not JSON. *)
Definition half_malformed : script :=
  with_scripts [asks [weather_call "call_1" beijing;
                      weather_call "call_2" (PStr "Shanghai")];
                says answer]
               [Returns [("content", PStr "21")];
                Returns [("content", PStr "24")]]
               [] (Returns tt).

(** The remote call raises. *)
Definition decode_fault : exn :=
  mkExn (OtherException "ValidationError") "Invalid JSON-RPC message".

Definition faulty : script :=
  with_scripts [asks [weather_call "call_1" beijing]; says "Sorry."]
               [Raises decode_fault] [] (Returns tt).

(** The model answers at once. *)
Definition direct : script :=
  with_scripts [says "Hello!"] [] [] (Returns tt).

(** The content of the tool result is a list of dicts. *)
Definition listed : script :=
  with_scripts [asks [weather_call "call_1" beijing]; says answer]
               [Returns [("content", PList [PDict [("temperature", PInt 21)]])]]
               [] (Returns tt).

(** The chat model raises at the first query; the user goes on and quits. *)
Definition rate_limited : exn :=
  mkExn (OtherException "RateLimitError") "Rate limit reached".

Definition failing_model : script :=
  with_scripts [Raises rate_limited; says "Hello!"] []
               [Returns " hi "; Returns "hello again"; Returns "Quit"]
               (Returns tt).

(** Closing the client session raises. *)
Definition close_fault : exn := mkExn RuntimeError "unhandled errors in a TaskGroup".

Definition failing_close : script :=
  with_scripts [] [] [Returns "quit"] (Raises close_fault).

(** The connector of [connected], and a world where it is open. *)
Definition entered : MCPServerConnector :=
  match connector connected with
  | Some c => c
  | None => MCPServerConnector_init
  end.

Definition opened (w : script) : script := set_open w true true.

End Scenario.

(** * Properties *)

(** ** Strings *)

Module StrFacts.

Lemma append_nil_r (s : string) : s ++ "" = s.
Proof. induction s; simpl; congruence. Qed.

Lemma append_assoc (a b c : string) : (a ++ b) ++ c = a ++ (b ++ c).
Proof. induction a; simpl; congruence. Qed.

Lemma length_append (a b : string) :
  String.length (a ++ b) = String.length a + String.length b.
Proof. induction a; simpl; congruence. Qed.

End StrFacts.

(** ** The library functions on examples *)

Example repr_list_of_dict :
  Repr.str (PList [PDict [("temperature", PInt 21); ("ok", PBool true)]; PStr "it's"; PNone])
  = "[{'temperature': 21, 'ok': True}, " ++ String dquote ("it's" ++ String dquote ", None]").
Proof. reflexivity. Qed.

Example strip_lower_quit : Str.lower (Str.strip "  QuIt
 ") = "quit".
Proof. reflexivity. Qed.

Example loads_weather :
  Json.loads (dq "{`city`: `Beijing`, `days`:[1, -20,3], `x`: {`a`: null, `b\n`: true}}")
  = Returns (PDict [("city", PStr "Beijing");
                    ("days", PList [PInt 1; PInt (-20); PInt 3]);
                    ("x", PDict [("a", PNone); (String (Str.byte 98) (String (Str.byte 10) ""), PBool true)])]).
Proof. vm_compute. reflexivity. Qed.

Example loads_malformed :
  Json.loads "{'city': 'Beijing'}" = Raises Json.expecting_name
  /\ Json.loads "not json" = Raises (Json.decode_error "Expecting value")
  /\ Json.loads (dq "{`a`: 1,}") = Raises Json.expecting_name
  /\ Json.loads "[1, 2" = Raises Json.expecting_comma
  /\ Json.loads "01" = Raises (Json.decode_error "Extra data")
  /\ Json.loads "1.5e3 " = Returns (PFloat "1.5e3")
  /\ Json.loads (dq "{`a`: 1, `b`: 2, `a`: 3}") = Returns (PDict [("a", PInt 3); ("b", PInt 2)]).
Proof. vm_compute. repeat split; reflexivity. Qed.

Example dumps_weather :
  Json.dumps (PDict [("temperature", PInt 21); ("condition", PStr "clear"); ("l", PList [PNone; PBool false])])
  = Returns (dq "{`temperature`: 21, `condition`: `clear`, `l`: [null, false]}").
Proof. vm_compute. reflexivity. Qed.

(** ** The [json] module: decoding what the encoder wrote *)

Module JsonFacts.
Import Json.

(** Texts made of JSON whitespace. *)
Fixpoint all_ws (s : string) : bool :=
  match s with
  | EmptyString => true
  | String c s' => is_ws c && all_ws s'
  end.

(** What may follow a number: not a digit, a point or an exponent mark. *)
Definition number_end (s : string) : bool :=
  match s with
  | EmptyString => true
  | String c _ =>
      negb (is_digit c || Ascii.eqb c "." || Ascii.eqb c "e" || Ascii.eqb c "E")
  end.

(** A value the encoder writes and the decoder reads back: no float, no
    object of another class, and the keys of a dict all different (as they
    are in a [dict]). *)
Fixpoint distinct (l : list string) : bool :=
  match l with
  | [] => true
  | k :: l' => negb (existsb (String.eqb k) l') && distinct l'
  end.

Fixpoint plain (v : pyval) : bool :=
  match v with
  | PNone | PBool _ | PInt _ | PStr _ => true
  | PFloat _ | PObj _ _ _ _ => false
  | PList l => forallb plain l
  | PDict d => distinct (map fst d) && forallb (fun kv => plain (snd kv)) d
  end.

(** The fuel [scan_once] needs for a value. *)
Fixpoint size (v : pyval) : nat :=
  match v with
  | PList l => S (fold_right (fun x n => S (size x + n)) 0 l)
  | PDict d => S (fold_right (fun kv n => S (size (snd kv) + n)) 0 d)
  | _ => 0
  end.

Lemma skip_ws_head c s : is_ws c = false -> skip_ws (String c s) = String c s.
Proof. intros H. simpl. now rewrite H. Qed.

Lemma skip_ws_app w s : all_ws w = true -> skip_ws (w ++ s) = skip_ws s.
Proof.
  induction w as [|c w IH]; simpl; [reflexivity|].
  intros H. apply andb_true_iff in H as [Hc Hw]. rewrite Hc. auto.
Qed.

(** *** Strings *)

(** An escaped character is read back when a character follows it (the
    closing quote, at the latest). *)
Lemma scanstring_escape_char c d r :
  scanstring (escape_char c ++ String d r)
  = cons_text (String c "") (scanstring (String d r)).
Proof.
  destruct c as [[] [] [] [] [] [] [] []]; reflexivity.
Qed.

Lemma escape_quote_head s rest :
  exists d r, escape s ++ String dquote rest = String d r.
Proof.
  destruct s as [|c s]; simpl; [eauto|].
  destruct c as [[] [] [] [] [] [] [] []]; simpl; eauto.
Qed.

Lemma scanstring_escape s rest :
  scanstring (escape s ++ String dquote rest) = Returns (s, rest).
Proof.
  induction s as [|c s IH]; simpl.
  - reflexivity.
  - rewrite StrFacts.append_assoc.
    destruct (escape_quote_head s rest) as (d & r & E).
    rewrite E, scanstring_escape_char, <- E, IH. reflexivity.
Qed.

Lemma encode_basestring_app s rest :
  encode_basestring s ++ rest = String dquote (escape s ++ String dquote rest).
Proof.
  unfold encode_basestring. simpl. now rewrite StrFacts.append_assoc.
Qed.

(** *** Numbers *)

Lemma number_end_inv c r :
  number_end (String c r) = true ->
  is_digit c = false /\ Ascii.eqb c "." = false
  /\ Ascii.eqb c "e" = false /\ Ascii.eqb c "E" = false.
Proof.
  unfold number_end. intros H. apply negb_true_iff in H.
  repeat (apply orb_false_iff in H as [H ?]). auto.
Qed.

Lemma span_digits_end rest : number_end rest = true -> span_digits rest = ("", rest).
Proof.
  destruct rest as [|c r]; [reflexivity|].
  intros H. apply number_end_inv in H as (Hd & _). simpl. now rewrite Hd.
Qed.

Lemma span_digits_uint d rest :
  number_end rest = true ->
  span_digits (NilEmpty.string_of_uint d ++ rest) = (NilEmpty.string_of_uint d, rest).
Proof.
  intros H. induction d; simpl;
    [ now apply span_digits_end | .. ];
    (change (is_digit _) with true; cbv iota; now rewrite IHd).
Qed.

Lemma frac_part_end rest : number_end rest = true -> frac_part rest = None.
Proof.
  destruct rest as [|c r]; [reflexivity|].
  intros H. apply number_end_inv in H as (_ & Hp & _). simpl. now rewrite Hp.
Qed.

Lemma exp_part_end rest : number_end rest = true -> exp_part rest = None.
Proof.
  destruct rest as [|c r]; [reflexivity|].
  intros H. apply number_end_inv in H as (_ & _ & He & HE). simpl.
  now rewrite He, HE.
Qed.

(** A numeral with a first digit that is not zero. *)
Definition nonzero_head (d : Decimal.uint) : bool :=
  match d with
  | Decimal.Nil | Decimal.D0 _ => false
  | _ => true
  end.

Lemma to_uint_head p : nonzero_head (Pos.to_uint p) = true.
Proof.
  pose proof (DecimalPos.Unsigned.to_of (Pos.to_uint p)) as H.
  rewrite DecimalPos.Unsigned.of_to in H. simpl in H.
  destruct (Pos.to_uint p) as [|d| | | | | | | | |] eqn:E; try reflexivity.
  - destruct (DecimalPos.Unsigned.to_uint_nonnil p E).
  - exfalso. unfold Decimal.unorm in H. simpl in H.
    destruct (Decimal.nzhead d) eqn:En; try discriminate.
    + injection H as ->. exact (DecimalPos.Unsigned.to_uint_nonzero p E).
    + rewrite <- En in H. exact (DecimalFacts.nzhead_nonzero _ _ (eq_sym H)).
Qed.

Lemma int_part_uint d rest :
  nonzero_head d = true -> number_end rest = true ->
  int_part (NilEmpty.string_of_uint d ++ rest)
  = Some (NilEmpty.string_of_uint d, rest).
Proof.
  intros Hd Hr. destruct d; try discriminate; simpl;
    (change (is_digit _) with true; cbv iota;
     now rewrite (span_digits_uint _ _ Hr)).
Qed.

Lemma match_number_uint (neg : bool) d rest :
  nonzero_head d = true -> number_end rest = true ->
  match_number ((if neg then "-" else "") ++ NilEmpty.string_of_uint d ++ rest)
  = Some (PInt (Z.of_int (if neg then Decimal.Neg d else Decimal.Pos d)), rest).
Proof.
  intros Hd Hr.
  assert (E : match_number ((if neg then "-" else "") ++ NilEmpty.string_of_uint d ++ rest)
              = match int_part (NilEmpty.string_of_uint d ++ rest) with
                | None => None
                | Some (ds, r) =>
                    let (frac, r1) :=
                      match frac_part r with Some (f, r') => (f, r') | None => ("", r) end in
                    let (exp, r2) :=
                      match exp_part r1 with Some (x, r') => (x, r') | None => ("", r1) end in
                    match frac ++ exp with
                    | EmptyString =>
                        match NilEmpty.uint_of_string ds with
                        | Some d => Some (PInt (Z.of_int (if neg then Decimal.Neg d else Decimal.Pos d)), r2)
                        | None => None
                        end
                    | _ => Some (PFloat ((if neg then "-" else "") ++ ds ++ frac ++ exp), r2)
                    end
                end).
  { destruct neg; [reflexivity|].
    destruct d; try discriminate; reflexivity. }
  rewrite E, (int_part_uint _ _ Hd Hr), (frac_part_end _ Hr), (exp_part_end _ Hr).
  simpl. now rewrite NilEmpty.usu.
Qed.

Lemma match_number_int z rest :
  number_end rest = true ->
  match_number (Repr.int_str z ++ rest) = Some (PInt z, rest).
Proof.
  intros Hr. unfold Repr.int_str. destruct z as [|p|p].
  - simpl. unfold match_number. cbn [int_part Ascii.eqb Bool.eqb].
    rewrite (frac_part_end _ Hr), (exp_part_end _ Hr). reflexivity.
  - simpl Z.to_int. unfold NilZero.string_of_int, NilZero.string_of_uint.
    pose proof (to_uint_head p) as Hh.
    replace (match Pos.to_uint p with Decimal.Nil => "0" | _ => NilEmpty.string_of_uint (Pos.to_uint p) end)
      with (NilEmpty.string_of_uint (Pos.to_uint p))
      by (destruct (Pos.to_uint p); try reflexivity; discriminate).
    etransitivity; [exact (match_number_uint false _ _ Hh Hr)|].
    change (Decimal.Pos (Pos.to_uint p)) with (Z.to_int (Z.pos p)).
    cbv iota. now rewrite DecimalZ.of_to.
  - simpl Z.to_int. unfold NilZero.string_of_int, NilZero.string_of_uint.
    pose proof (to_uint_head p) as Hh.
    replace (match Pos.to_uint p with Decimal.Nil => "0" | _ => NilEmpty.string_of_uint (Pos.to_uint p) end)
      with (NilEmpty.string_of_uint (Pos.to_uint p))
      by (destruct (Pos.to_uint p); try reflexivity; discriminate).
    etransitivity; [exact (match_number_uint true _ _ Hh Hr)|].
    change (Decimal.Neg (Pos.to_uint p)) with (Z.to_int (Z.neg p)).
    cbv iota. now rewrite DecimalZ.of_to.
Qed.

Lemma int_str_head z :
  exists c s, Repr.int_str z = String c s
              /\ (is_digit c = true \/ c = "-"%char).
Proof.
  assert (U : forall p, exists c s,
               NilZero.string_of_uint (Pos.to_uint p) = String c s
               /\ is_digit c = true).
  { intros p. pose proof (to_uint_head p) as H.
    destruct (Pos.to_uint p); try discriminate; simpl;
      eexists; eexists; (split; [reflexivity | reflexivity]). }
  unfold Repr.int_str. destruct z as [|p|p]; simpl.
  - exists "0"%char, "". split; [reflexivity | now left].
  - destruct (U p) as (c & s & E & Hc). exists c, s. split; [exact E | now left].
  - exists "-"%char. eexists. split; [reflexivity | now right].
Qed.

Lemma scan_once_numeral fuel c t r :
  is_digit c = true \/ c = "-"%char ->
  match_number (String c t) = Some r ->
  scan_once (S fuel) (String c t) = Returns r.
Proof.
  intros Hc Hm.
  assert (E : scan_once (S fuel) (String c t)
              = match match_number (String c t) with
                | Some r => Returns r
                | None => Raises (decode_error "Expecting value")
                end).
  { destruct c as [[] [] [] [] [] [] [] []];
      destruct Hc as [Hc | Hc]; try discriminate Hc; try reflexivity.
    cbn -[match_number]. now rewrite Hm. }
  now rewrite E, Hm.
Qed.

Lemma scan_once_int fuel z rest :
  number_end rest = true ->
  scan_once (S fuel) (Repr.int_str z ++ rest) = Returns (PInt z, rest).
Proof.
  intros Hr. pose proof (match_number_int z rest Hr) as Hm.
  destruct (int_str_head z) as (c & s & E & Hc). rewrite E in *.
  exact (scan_once_numeral fuel c (s ++ rest) _ Hc Hm).
Qed.

(** *** Values *)

(** The first character of the text of a value: no whitespace, no closing
    bracket. *)
Definition head_ok (s : string) : Prop :=
  exists c s', s = String c s' /\ is_ws c = false
               /\ Ascii.eqb c "]" = false /\ Ascii.eqb c "}" = false
               /\ (N_of_ascii c <? 128)%N = true.

Lemma head_ok_skip_ws s : head_ok s -> skip_ws s = s.
Proof. intros (c & s' & -> & H & _). now apply skip_ws_head. Qed.

Lemma head_ok_app s t : head_ok s -> head_ok (s ++ t).
Proof. intros (c & s' & -> & H). exists c, (s' ++ t). now split. Qed.

Lemma head_ok_literal c s :
  is_ws c = false -> Ascii.eqb c "]" = false -> Ascii.eqb c "}" = false ->
  (N_of_ascii c <? 128)%N = true ->
  head_ok (String c s).
Proof. intros. exists c, s. auto. Qed.

Lemma scan_once_array_eq fuel s :
  scan_once (S fuel) (String "[" s)
  = match skip_ws s with
    | String c1 s2 =>
        if Ascii.eqb c1 "]" then Returns (PList [], s2)
        else
          match array_items fuel (String c1 s2) with
          | Returns (vs, rest) => Returns (PList vs, rest)
          | Raises e => Raises e
          end
    | EmptyString => Raises (decode_error "Expecting value")
    end.
Proof. reflexivity. Qed.

Lemma scan_once_object_eq fuel s :
  scan_once (S fuel) (String "{" s)
  = match skip_ws s with
    | String c1 s2 =>
        if Ascii.eqb c1 "}" then Returns (PDict [], s2)
        else if Ascii.eqb c1 dquote then
          match object_pairs fuel s2 with
          | Returns (pairs, rest) => Returns (PDict (Dict.of_pairs pairs), rest)
          | Raises e => Raises e
          end
        else Raises expecting_name
    | EmptyString => Raises expecting_name
    end.
Proof. reflexivity. Qed.

Lemma array_dispatch fuel s :
  head_ok s ->
  scan_once (S fuel) (String "[" s)
  = match array_items fuel s with
    | Returns (vs, rest) => Returns (PList vs, rest)
    | Raises e => Raises e
    end.
Proof.
  intros (c & s' & -> & Hws & Hb & _).
  rewrite scan_once_array_eq, skip_ws_head by exact Hws. now rewrite Hb.
Qed.

Lemma scan_once_string_eq fuel s :
  scan_once (S fuel) (String dquote s)
  = match scanstring s with
    | Returns (text, rest) => Returns (PStr text, rest)
    | Raises e => Raises e
    end.
Proof. reflexivity. Qed.

(** [dict(pairs)] of pairs with different keys is the pairs. *)
Lemma set_fresh (k : string) (v : pyval) d :
  existsb (String.eqb k) (map fst d) = false ->
  Dict.set k v d = (d ++ [(k, v)])%list.
Proof.
  induction d as [|[k' v'] d IH]; simpl; [reflexivity|].
  intros H. apply orb_false_iff in H as [H1 H2].
  rewrite H1. now rewrite IH.
Qed.

Lemma of_pairs_distinct (d : list (string * pyval)) :
  distinct (map fst d) = true -> Dict.of_pairs d = d.
Proof.
  unfold Dict.of_pairs.
  assert (G : forall acc,
             distinct (map fst (acc ++ d)%list) = true ->
             fold_left (fun d kv => Dict.set (fst kv) (snd kv) d) d acc
             = (acc ++ d)%list).
  { induction d as [|[k v] d IH]; intros acc H; simpl.
    - now rewrite List.app_nil_r.
    - assert (F : existsb (String.eqb k) (map fst acc) = false).
      { clear IH. induction acc as [|[k' v'] acc IHa]; simpl in *; [reflexivity|].
        apply andb_true_iff in H as [H1 H2]. apply negb_true_iff in H1.
        rewrite map_app, existsb_app in H1. apply orb_false_iff in H1 as [_ H1].
        simpl in H1. apply orb_false_iff in H1 as [H1 _].
        rewrite String.eqb_sym, H1. simpl. now apply IHa. }
      rewrite (set_fresh _ _ _ F), IH; rewrite <- List.app_assoc; [reflexivity | exact H]. }
  intros H. exact (G [] H).
Qed.

Section RoundTrip.
Variables wi wk : string.
Hypothesis Hwi : all_ws wi = true.
Hypothesis Hwk : all_ws wk = true.

#[local] Abbreviation enc := (encode (String "," wi) (String ":" wk)).

Definition pair_text (kv : string * pyval) : string :=
  encode_basestring (fst kv) ++ (String ":" wk) ++ enc (snd kv).

(** What follows the first item of a list, the first pair of a dict. *)
Definition items_tail (l : list pyval) : string :=
  fold_right (fun x acc => (String "," wi) ++ enc x ++ acc) "" l.

Definition pairs_tail (d : list (string * pyval)) : string :=
  fold_right (fun kv acc => (String "," wi) ++ pair_text kv ++ acc) "" d.

Lemma join_items x l :
  Str.join (String "," wi) (map enc (x :: l)) = enc x ++ items_tail l.
Proof.
  revert x. induction l as [|y l IH]; intros x.
  - simpl. now rewrite StrFacts.append_nil_r.
  - change (Str.join (String "," wi) (map enc (x :: y :: l)))
      with (enc x ++ (String "," wi) ++ Str.join (String "," wi) (map enc (y :: l))).
    rewrite IH. reflexivity.
Qed.

Lemma join_pairs kv d :
  Str.join (String "," wi) (map (fun kv => encode_basestring (fst kv) ++ (String ":" wk) ++ enc (snd kv)) (kv :: d))
  = pair_text kv ++ pairs_tail d.
Proof.
  revert kv. induction d as [|y d IH]; intros kv.
  - simpl. now rewrite StrFacts.append_nil_r.
  - change (Str.join (String "," wi) (map (fun kv => encode_basestring (fst kv) ++ (String ":" wk) ++ enc (snd kv)) (kv :: y :: d)))
      with (pair_text kv ++ (String "," wi)
            ++ Str.join (String "," wi) (map (fun kv => encode_basestring (fst kv) ++ (String ":" wk) ++ enc (snd kv)) (y :: d))).
    rewrite IH. reflexivity.
Qed.

Lemma encode_head v : plain v = true -> head_ok (enc v).
Proof.
  destruct v as [| [] | z | | s | l | d | ]; intros H; try discriminate H;
    try (apply head_ok_literal; reflexivity).
  destruct (int_str_head z) as (c & s & E & Hc). simpl. rewrite E.
  apply head_ok_literal;
    destruct c as [[] [] [] [] [] [] [] []];
    destruct Hc as [Hc | Hc]; try discriminate Hc; reflexivity.
Qed.

(** The property proved by induction on the value. *)
Definition reads_back (v : pyval) : Prop :=
  plain v = true ->
  forall fuel rest,
    size v < fuel -> number_end rest = true ->
    scan_once fuel (enc v ++ rest) = Returns (v, rest).

Lemma array_items_encode l :
  Forall reads_back l -> forallb plain l = true ->
  forall x fuel rest,
    reads_back x -> plain x = true ->
    S (size x + fold_right (fun y n => S (size y + n)) 0 l) < fuel ->
    array_items fuel (enc x ++ items_tail l ++ "]" ++ rest)
    = Returns (x :: l, rest).
Proof.
  induction l as [|y l IH]; intros Hl Pl x fuel rest Hx Px Hf;
    (destruct fuel as [|fuel]; [lia|]); cbn [array_items].
  - simpl items_tail. cbn [append].
    rewrite (Hx Px fuel (String "]" rest)); [| simpl in Hf; lia | reflexivity].
    reflexivity.
  - simpl in Pl. apply andb_true_iff in Pl as [Py Pl].
    inversion Hl as [|? ? Hy Hl']; subst.
    simpl in Hf.
    assert (E : items_tail (y :: l) ++ "]" ++ rest
                = String "," (wi ++ enc y ++ items_tail l ++ "]" ++ rest)).
    { simpl. now rewrite !StrFacts.append_assoc. }
    rewrite E, (Hx Px fuel); [| lia | reflexivity].
    cbn [skip_ws is_ws]. change (is_ws ",") with false. cbv iota.
    change (Ascii.eqb "," "]") with false. change (Ascii.eqb "," ",") with true.
    cbv iota. rewrite (skip_ws_app _ _ Hwi).
    rewrite (head_ok_skip_ws _ (head_ok_app _ _ (encode_head y Py))).
    rewrite (IH Hl' Pl y fuel rest Hy Py); [reflexivity | lia].
Qed.

Lemma pair_text_app kv t :
  pair_text kv ++ t
  = String dquote (escape (fst kv)
                   ++ String dquote (String ":" (wk ++ enc (snd kv) ++ t))).
Proof.
  unfold pair_text. rewrite StrFacts.append_assoc, encode_basestring_app.
  simpl. now rewrite StrFacts.append_assoc.
Qed.

Lemma object_pairs_encode d :
  Forall (fun kv => reads_back (snd kv)) d ->
  forallb (fun kv => plain (snd kv)) d = true ->
  forall k x fuel rest,
    reads_back x -> plain x = true ->
    S (size x + fold_right (fun kv n => S (size (snd kv) + n)) 0 d) < fuel ->
    object_pairs fuel
      (escape k ++ String dquote
         (String ":" (wk ++ enc x ++ pairs_tail d ++ "}" ++ rest)))
    = Returns ((k, x) :: d, rest).
Proof.
  induction d as [|[k2 y] d IH]; intros Hd Pd k x fuel rest Hx Px Hf;
    (destruct fuel as [|fuel]; [lia|]); cbn [object_pairs];
    rewrite scanstring_escape; cbn [skip_ws];
    change (is_ws ":") with false; cbv iota;
    change (Ascii.eqb ":" ":") with true; cbv iota;
    rewrite (skip_ws_app _ _ Hwk),
      (head_ok_skip_ws _ (head_ok_app _ _ (encode_head x Px))).
  - simpl pairs_tail. cbn [append].
    rewrite (Hx Px fuel (String "}" rest)); [| simpl in Hf; lia | reflexivity].
    reflexivity.
  - simpl in Pd. apply andb_true_iff in Pd as [Py Pd].
    inversion Hd as [|? ? Hy Hd']; subst. simpl in Hy, Hf.
    assert (E : pairs_tail ((k2, y) :: d) ++ "}" ++ rest
                = String "," (wi ++ String dquote
                                (escape k2 ++ String dquote
                                   (String ":" (wk ++ enc y ++ pairs_tail d ++ "}" ++ rest))))).
    { change (pairs_tail ((k2, y) :: d))
        with (String "," wi ++ pair_text (k2, y) ++ pairs_tail d).
      cbn [append]. f_equal. rewrite !StrFacts.append_assoc. f_equal.
      apply (pair_text_app (k2, y)). }
    rewrite E, (Hx Px fuel); [| lia | reflexivity].
    cbn [skip_ws]. change (is_ws ",") with false. cbv iota.
    change (Ascii.eqb "," "}") with false. change (Ascii.eqb "," ",") with true.
    cbv iota. rewrite (skip_ws_app _ _ Hwi). cbn [skip_ws].
    change (is_ws dquote) with false. cbv iota.
    change (Ascii.eqb dquote dquote) with true. cbv iota.
    rewrite (IH Hd' Pd k2 y fuel rest Hy Py); [reflexivity | lia].
Qed.

Lemma forallb_Forall {A} (f : A -> bool) l :
  forallb f l = true -> Forall (fun x => f x = true) l.
Proof.
  induction l as [|x l IH]; simpl; intros H; constructor;
    apply andb_true_iff in H as [H1 H2]; auto.
Qed.

(** The decoder reads back the text of a plain value, whatever follows. *)
Lemma scan_once_encode v : reads_back v.
Proof.
  induction v as [| b | z | l | s | l IH | d IH | c s r o IH] using pyval_ind;
    intros P fuel rest Hf Hr; try discriminate P;
    (destruct fuel as [|fuel]; [lia|]).
  - reflexivity.
  - destruct b; reflexivity.
  - now apply scan_once_int.
  - cbn [encode]. rewrite encode_basestring_app, scan_once_string_eq.
    now rewrite scanstring_escape.
  - cbn [encode]. simpl in P. destruct l as [|x l].
    + reflexivity.
    + apply andb_true_iff in P as [Px Pl].
      inversion IH as [|? ? Hx Hl]; subst.
      pose proof (array_items_encode l Hl Pl x fuel rest Hx Px) as A.
      rewrite join_items. cbn [append] in *. rewrite !StrFacts.append_assoc.
      cbn [append].
      rewrite array_dispatch by (apply head_ok_app, encode_head; exact Px).
      rewrite A; [reflexivity | simpl in Hf; lia].
  - cbn [encode]. simpl in P. apply andb_true_iff in P as [Pk P].
    destruct d as [|[k x] d].
    + reflexivity.
    + simpl in P. apply andb_true_iff in P as [Px Pd].
      inversion IH as [|? ? Hx Hd]; subst. simpl in Hx.
      pose proof (object_pairs_encode d Hd Pd k x fuel rest Hx Px) as A.
      rewrite join_pairs. cbn [append] in *. rewrite !StrFacts.append_assoc.
      rewrite pair_text_app. cbn [append fst snd].
      rewrite scan_once_object_eq. cbn [skip_ws].
      change (is_ws dquote) with false. cbv iota.
      change (Ascii.eqb dquote "}") with false.
      change (Ascii.eqb dquote dquote) with true. cbv iota.
      rewrite A; [| simpl in Hf; lia].
      now rewrite (of_pairs_distinct _ Pk).
Qed.

Lemma items_tail_length l :
  Forall (fun v => size v <= String.length (enc v)) l ->
  fold_right (fun y n => S (size y + n)) 0 l <= String.length (items_tail l).
Proof.
  induction 1 as [|y l Hy _ IH]; simpl; [lia|].
  rewrite !StrFacts.length_append. lia.
Qed.

Lemma pairs_tail_length (d : list (string * pyval)) :
  Forall (fun kv => size (snd kv) <= String.length (enc (snd kv))) d ->
  fold_right (fun kv n => S (size (snd kv) + n)) 0 d
  <= String.length (pairs_tail d).
Proof.
  induction 1 as [|y l Hy _ IH]; simpl; [lia|].
  unfold pair_text, encode_basestring.
  repeat (rewrite StrFacts.length_append || cbn [String.length append]). lia.
Qed.

Lemma size_le_length v : size v <= String.length (enc v).
Proof.
  induction v as [| b | z | l | s | l IH | d IH | c s r o IH] using pyval_ind;
    try (simpl; lia).
  - cbn [size encode]. destruct l as [|x l]; [simpl; lia|].
    rewrite join_items. inversion IH as [|? ? Hx Hl]; subst.
    pose proof (items_tail_length l Hl).
    repeat (rewrite StrFacts.length_append || cbn [String.length append fold_right]).
    lia.
  - cbn [size encode]. destruct d as [|[k x] d]; [simpl; lia|].
    rewrite join_pairs. inversion IH as [|? ? Hx Hd]; subst.
    pose proof (pairs_tail_length d Hd). simpl in Hx.
    unfold pair_text, encode_basestring.
    repeat (rewrite StrFacts.length_append
            || cbn [String.length append fold_right snd fst]).
    lia.
Qed.

(** [json.loads] reads back what the encoder wrote. *)
Lemma loads_encode v :
  plain v = true -> loads (enc v) = Returns v.
Proof.
  intros P. unfold loads.
  destruct (encode_head v P) as (c & s' & E & Hws & _ & _ & Hc).
  assert (B : Str.is_prefix BOM (enc v) = false).
  { rewrite E. destruct c as [[] [] [] [] [] [] [] []];
      try discriminate Hc; reflexivity. }
  rewrite B, (head_ok_skip_ws _ (encode_head v P)).
  pose proof (scan_once_encode v P (S (2 * String.length (enc v))) "") as H.
  rewrite StrFacts.append_nil_r in H.
  rewrite H; [reflexivity | | reflexivity].
  pose proof (size_le_length v). lia.
Qed.

End RoundTrip.

Lemma plain_serializable v : plain v = true -> find_unserializable v = None.
Proof.
  induction v as [| b | z | l | s | l IH | d IH | c s r o IH] using pyval_ind;
    intros P; try reflexivity; try discriminate P.
  - cbn [find_unserializable]. simpl in P.
    induction IH as [|x l Hx _ IHl]; [reflexivity|].
    simpl in P. apply andb_true_iff in P as [Px Pl].
    now rewrite (Hx Px), (IHl Pl).
  - cbn [find_unserializable]. simpl in P.
    apply andb_true_iff in P as [_ P].
    induction IH as [|[k x] d Hx _ IHd]; [reflexivity|].
    simpl in P, Hx. apply andb_true_iff in P as [Px Pd].
    now rewrite (Hx Px), (IHd Pd).
Qed.

Lemma dumps_with_plain isep ksep v :
  plain v = true -> dumps_with isep ksep v = Returns (encode isep ksep v).
Proof. intros P. unfold dumps_with. now rewrite (plain_serializable v P). Qed.

(** [json.loads(json.dumps(v, ensure_ascii=False))] is [v]. *)
Lemma loads_dumps v :
  plain v = true ->
  dumps v = Returns (encode ", " ": " v)
  /\ loads (encode ", " ": " v) = Returns v.
Proof.
  intros P. split; [now apply dumps_with_plain|].
  exact (loads_encode " " " " eq_refl eq_refl v P).
Qed.

End JsonFacts.

(** ** The [json] module: the exceptions of [loads] *)

Module JsonErrors.
Import Json.

Ltac split_match H :=
  match type of H with
  | context [match ?x with _ => _ end] => destruct x eqn:?
  | context [if ?x then _ else _] => destruct x eqn:?
  end.

Lemma skip_ws_length s : String.length (skip_ws s) <= String.length s.
Proof.
  induction s as [|c s IH]; simpl; [lia|].
  destruct (is_ws c); simpl; lia.
Qed.

Lemma drop_length n s :
  n <= String.length s -> String.length (Str.drop n s) = String.length s - n.
Proof.
  revert s. induction n as [|n IH]; intros s H; simpl; [lia|].
  destruct s as [|c s]; simpl in *; [lia|]. apply IH. lia.
Qed.

Lemma drop_shorter n s :
  0 < n -> n <= String.length s ->
  String.length (Str.drop n s) < String.length s.
Proof. intros H0 H. rewrite drop_length by exact H. lia. Qed.

Lemma is_prefix_length p s :
  Str.is_prefix p s = true -> String.length p <= String.length s.
Proof.
  revert s. induction p as [|a p IH]; intros s H; simpl; [lia|].
  destruct s as [|b s]; simpl in *; [discriminate|].
  apply andb_true_iff in H as [_ H]. apply IH in H. lia.
Qed.

Lemma span_digits_length s ds r :
  span_digits s = (ds, r) -> String.length r <= String.length s.
Proof.
  revert ds r. induction s as [|c s IH]; intros ds r; simpl.
  - intros [= <- <-]. simpl. lia.
  - destruct (is_digit c).
    + destruct (span_digits s) as [ds' r'] eqn:E. intros [= <- <-].
      specialize (IH _ _ eq_refl). lia.
    + intros [= <- <-]. simpl. lia.
Qed.

Lemma int_part_shorter s ds r :
  int_part s = Some (ds, r) -> String.length r < String.length s.
Proof.
  destruct s as [|c s]; simpl; [discriminate|].
  destruct (Ascii.eqb c "0"); [intros [= <- <-]; lia|].
  destruct (is_digit c); [| discriminate].
  destruct (span_digits s) as [ds' r'] eqn:E. intros [= <- <-].
  apply span_digits_length in E. lia.
Qed.

Lemma frac_part_shorter s f r :
  frac_part s = Some (f, r) -> String.length r <= String.length s.
Proof.
  destruct s as [|c s]; simpl; [discriminate|].
  destruct (Ascii.eqb c "."); [| discriminate].
  destruct (span_digits s) as [[|d ds] r'] eqn:E; [discriminate|].
  intros [= <- <-]. apply span_digits_length in E. lia.
Qed.

Lemma exp_part_shorter s x r :
  exp_part s = Some (x, r) -> String.length r <= String.length s.
Proof.
  destruct s as [|c s]; simpl; [discriminate|].
  destruct (Ascii.eqb c "e" || Ascii.eqb c "E"); [| discriminate].
  destruct s as [|d s'].
  - simpl. discriminate.
  - destruct (Ascii.eqb d "-" || Ascii.eqb d "+").
    + destruct (span_digits s') as [[|d' ds] r'] eqn:E; [discriminate|].
      intros [= <- <-]. apply span_digits_length in E. simpl. lia.
    + destruct (span_digits (String d s')) as [[|d' ds] r'] eqn:E; [discriminate|].
      intros [= <- <-]. apply span_digits_length in E. simpl in *. lia.
Qed.

Lemma match_number_shorter s v r :
  match_number s = Some (v, r) -> String.length r < String.length s.
Proof.
  unfold match_number.
  assert (G : forall s1 (neg : bool),
             match int_part s1 with
             | None => None
             | Some (ds, r0) =>
                 let (frac, r1) :=
                   match frac_part r0 with Some (f, r') => (f, r') | None => ("", r0) end in
                 let (exp, r2) :=
                   match exp_part r1 with Some (x, r') => (x, r') | None => ("", r1) end in
                 match frac ++ exp with
                 | EmptyString =>
                     match NilEmpty.uint_of_string ds with
                     | Some d =>
                         Some (PInt (Z.of_int (if neg then Decimal.Neg d else Decimal.Pos d)), r2)
                     | None => None
                     end
                 | _ => Some (PFloat ((if neg then "-" else "") ++ ds ++ frac ++ exp), r2)
                 end
             end = Some (v, r) -> String.length r < String.length s1).
  { intros s1 neg. destruct (int_part s1) as [[ds r0]|] eqn:Ei; [| discriminate].
    apply int_part_shorter in Ei.
    destruct (frac_part r0) as [[f r1]|] eqn:Ef;
      [apply frac_part_shorter in Ef|];
      (destruct (exp_part _) as [[x r2]|] eqn:Ex;
       [apply exp_part_shorter in Ex|]);
      intros H; repeat (split_match H; try discriminate H);
      injection H as <- <-; lia. }
  destruct s as [|c s']; [apply (G "" false)|].
  destruct (Ascii.eqb c "-").
  - intros H. pose proof (G s' true H). simpl. lia.
  - exact (G (String c s') false).
Qed.

Lemma cons_text_returns t x t' r :
  cons_text t x = Returns (t', r) -> exists t0, x = Returns (t0, r).
Proof.
  destruct x as [[t0 r0]|e]; simpl; [| discriminate].
  intros [= <- <-]. eauto.
Qed.

Lemma cons_text_raises t x e : cons_text t x = Raises e -> x = Raises e.
Proof. destruct x as [[t0 r0]|e']; simpl; [discriminate | congruence]. Qed.

Lemma scanstring_shorter_upto n :
  forall s t r,
    String.length s <= n ->
    scanstring s = Returns (t, r) -> String.length r < String.length s.
Proof.
  induction n as [|n IH]; intros s t r Hn H;
    (destruct s as [|c s1]; [discriminate H|]); simpl in Hn; [lia|].
  cbn [scanstring] in H.
  repeat (split_match H; try discriminate H);
    try (injection H as Ht Hr; subst t r; simpl; lia);
    apply cons_text_returns in H as (t0 & H); apply IH in H;
    subst; cbn [String.length] in *; lia.
Qed.

Lemma scanstring_shorter s t r :
  scanstring s = Returns (t, r) -> String.length r < String.length s.
Proof. apply (scanstring_shorter_upto (String.length s)). lia. Qed.

Lemma scanstring_raises_upto n :
  forall s e,
    String.length s <= n ->
    scanstring s = Raises e -> exc_class e = JSONDecodeError.
Proof.
  induction n as [|n IH]; intros s e Hn H;
    (destruct s as [|c s1]; [now injection H as <-|]); simpl in Hn; [lia|].
  cbn [scanstring] in H.
  repeat (split_match H; try discriminate H);
    try (injection H as <-; reflexivity);
    apply cons_text_raises in H; apply IH in H; auto;
    subst; cbn [String.length] in *; lia.
Qed.

Lemma scanstring_raises s e :
  scanstring s = Raises e -> exc_class e = JSONDecodeError.
Proof. apply (scanstring_raises_upto (String.length s)). lia. Qed.

Lemma scan_constant_shorter s v r :
  scan_constant s = Returns (v, r) -> String.length r < String.length s.
Proof.
  unfold scan_constant. intros H.
  repeat (split_match H; try discriminate H).
  all: try (injection H as Hv Hr; subst v r;
            match goal with
            | E : Str.is_prefix ?p ?s0 = true |- _ =>
                apply is_prefix_length in E;
                exact (drop_shorter (String.length p) s0 ltac:(simpl; lia) E)
            end).
  injection H as ->. eapply match_number_shorter. eassumption.
Qed.

Lemma scan_constant_raises s e :
  scan_constant s = Raises e -> exc_class e = JSONDecodeError.
Proof.
  unfold scan_constant. intros H.
  repeat (split_match H; try discriminate H). now injection H as <-.
Qed.

(** What [skip_ws] gives is not longer than its argument. *)
Ltac skip_ws_facts :=
  repeat match goal with
         | E : skip_ws ?s = ?x |- _ =>
             let L := fresh "L" in
             assert (L : String.length x <= String.length s)
               by (rewrite <- E; apply skip_ws_length);
             clear E
         end.

(** The decoder consumes what it reads. *)
Lemma scan_shorter fuel :
  (forall s v r, scan_once fuel s = Returns (v, r) ->
                 String.length r < String.length s)
  /\ (forall s vs r, array_items fuel s = Returns (vs, r) ->
                     String.length r < String.length s)
  /\ (forall s ps r, object_pairs fuel s = Returns (ps, r) ->
                     String.length r < String.length s).
Proof.
  induction fuel as [|fuel (IH1 & IH2 & IH3)];
    [repeat split; intros; discriminate|].
  repeat split.
  - intros s v r H. cbn [scan_once] in H.
    repeat (split_match H; try discriminate H);
      try (apply scan_constant_shorter in H; subst; exact H);
      injection H as Hv Hr; subst;
      repeat match goal with
             | E : scanstring _ = Returns _ |- _ => apply scanstring_shorter in E
             | E : array_items fuel _ = Returns _ |- _ => apply IH2 in E
             | E : object_pairs fuel _ = Returns _ |- _ => apply IH3 in E
             end;
      skip_ws_facts; cbn [String.length] in *; lia.
  - intros s vs r H. cbn [array_items] in H.
    repeat (split_match H; try discriminate H);
      injection H as Hv Hr; subst;
      repeat match goal with
             | E : scan_once fuel _ = Returns _ |- _ => apply IH1 in E
             | E : array_items fuel _ = Returns _ |- _ => apply IH2 in E
             end;
      skip_ws_facts; cbn [String.length] in *;
      try match goal with
          | |- context [skip_ws ?x] => pose proof (skip_ws_length x)
          | H : context [skip_ws ?x] |- _ => pose proof (skip_ws_length x)
          end;
      lia.
  - intros s ps r H. cbn [object_pairs] in H.
    repeat (split_match H; try discriminate H);
      injection H as Hv Hr; subst;
      repeat match goal with
             | E : scanstring _ = Returns _ |- _ => apply scanstring_shorter in E
             | E : scan_once fuel _ = Returns _ |- _ => apply IH1 in E
             | E : object_pairs fuel _ = Returns _ |- _ => apply IH3 in E
             end;
      skip_ws_facts; cbn [String.length] in *;
      try match goal with
          | |- context [skip_ws ?x] => pose proof (skip_ws_length x)
          | H : context [skip_ws ?x] |- _ => pose proof (skip_ws_length x)
          end;
      lia.
Qed.

(** Lengths of what the calls that returned left to read. *)
Ltac length_facts fuel :=
  repeat match goal with
         | E : scanstring _ = Returns _ |- _ => apply scanstring_shorter in E
         | E : scan_once fuel _ = Returns _ |- _ =>
             apply (proj1 (scan_shorter fuel)) in E
         | E : array_items fuel _ = Returns _ |- _ =>
             apply (proj1 (proj2 (scan_shorter fuel))) in E
         | E : object_pairs fuel _ = Returns _ |- _ =>
             apply (proj2 (proj2 (scan_shorter fuel))) in E
         end;
  skip_ws_facts;
  repeat match goal with
         | |- context [skip_ws ?x] =>
             lazymatch goal with
             | _ : String.length (skip_ws x) <= String.length x |- _ => fail
             | _ => pose proof (skip_ws_length x)
             end
         | _ : context [skip_ws ?x] |- _ =>
             lazymatch goal with
             | _ : String.length (skip_ws x) <= String.length x |- _ => fail
             | _ => pose proof (skip_ws_length x)
             end
         end;
  cbn [String.length] in *.

(** With fuel for twice the length of the text, the decoder raises decoding
    errors only: the fuel does not run out. *)
Lemma scan_raises fuel :
  (forall s e, 2 * String.length s < fuel ->
               scan_once fuel s = Raises e -> exc_class e = JSONDecodeError)
  /\ (forall s e, 2 * String.length s + 1 < fuel ->
                  array_items fuel s = Raises e -> exc_class e = JSONDecodeError)
  /\ (forall s e, 2 * String.length s + 1 < fuel ->
                  object_pairs fuel s = Raises e -> exc_class e = JSONDecodeError).
Proof.
  induction fuel as [|fuel (IH1 & IH2 & IH3)];
    [repeat split; intros; lia|].
  repeat split.
  - intros s e Hf H. cbn [scan_once] in H.
    repeat (split_match H; try discriminate H);
      try (exact (scan_constant_raises _ _ H));
      injection H as He; subst;
      try reflexivity;
      match goal with
      | E : scanstring _ = Raises _ |- _ => exact (scanstring_raises _ _ E)
      | E : array_items fuel ?x = Raises _ |- _ =>
          apply (IH2 x); [| exact E]
      | E : object_pairs fuel ?x = Raises _ |- _ =>
          apply (IH3 x); [| exact E]
      end;
      clear IH1 IH2 IH3; length_facts fuel; lia.
  - intros s e Hf H. cbn [array_items] in H.
    repeat (split_match H; try discriminate H);
      injection H as He; subst;
      try reflexivity;
      match goal with
      | E : array_items fuel ?x = Raises _ |- _ =>
          apply (IH2 x); [| exact E]
      | E : scan_once fuel ?x = Raises _ |- _ =>
          apply (IH1 x); [| exact E]
      end;
      clear IH1 IH2 IH3; length_facts fuel; lia.
  - intros s e Hf H. cbn [object_pairs] in H.
    repeat (split_match H; try discriminate H);
      injection H as He; subst;
      try reflexivity;
      match goal with
      | E : scanstring _ = Raises _ |- _ => exact (scanstring_raises _ _ E)
      | E : object_pairs fuel ?x = Raises _ |- _ =>
          apply (IH3 x); [| exact E]
      | E : scan_once fuel ?x = Raises _ |- _ =>
          apply (IH1 x); [| exact E]
      end;
      clear IH1 IH2 IH3; length_facts fuel; lia.
Qed.

(** [json.loads] of a string returns a value or raises a
    [JSONDecodeError], which is an [Exception]. *)
Theorem loads_raises_decode_error s e :
  loads s = Raises e ->
  exc_class e = JSONDecodeError /\ is_Exception e = true.
Proof.
  intros H.
  assert (G : exc_class e = JSONDecodeError).
  { unfold loads in H.
    repeat (split_match H; try discriminate H);
      injection H as He; subst; try reflexivity.
    match goal with
    | E : scan_once _ ?x = Raises _ |- _ =>
        apply (proj1 (scan_raises _) x) in E; [exact E|]
    end.
    pose proof (skip_ws_length s). lia. }
  split; [exact G|]. unfold is_Exception. now rewrite G.
Qed.

End JsonErrors.

(** ** The client *)

(** The state after printing lines, after appending turns to the
    conversation, after a call that changed the world. *)
Definition printed {C : Collaborators} (st : state C) (l : list string) : state C :=
  mkState (world st) (stdout st ++ l)%list (messages st).

Definition appended {C : Collaborators} (st : state C) (l : list message) : state C :=
  mkState (world st) (stdout st) (messages st ++ l)%list.

Definition moved {C : Collaborators} (st : state C) (w : World) : state C :=
  mkState w (stdout st) (messages st).

(** The function declarations of the catalog of a connector. *)
Definition catalog_decls (c : MCPServerConnector) : list FunctionDecl :=
  map (fun tool => mkFunctionDecl (tool_name tool) (tool_description tool)
                                  (tool_inputSchema tool))
      (Dict.values (tools c)).

(** The lines [call_tool] and [process_query] print. *)
Definition log_call (name : string) (args : pyval) : string :=
  "[LOG] 调用 MCP 工具: " ++ name ++ ", 参数: " ++ Repr.str args.

Definition log_fault (e : exn) : string := "[ERROR] 工具调用异常: " ++ exn_str e.

Definition log_result (name content : string) : string :=
  "[LOG] 工具 " ++ name ++ " 返回: " ++ content.

(** The lines [chat_loop] prints for an exception. *)
Definition report (e : exn) : list string :=
  [LF ++ "报错了: " ++ exn_str e; "[LOG] 异常详情: " ++ exn_str e].

(** The text of the result a fault of the remote call is turned into. *)
Definition fault_text (e : exn) : string := "[工具调用异常] " ++ exn_str e.

Definition is_user_turn (m : message) : bool :=
  match m with UserMessage _ => true | _ => false end.

Definition is_assistant_turn (m : message) : bool :=
  match m with AssistantMessage _ _ => true | _ => false end.

Definition is_tool_turn (m : message) : bool :=
  match m with ToolMessage _ _ => true | _ => false end.

Definition count_turns (kind : message -> bool) (l : list message) : nat :=
  List.length (filter kind l).

(** The tool result turns of the first requests of [calls], one for each
    text of [contents]. *)
Definition tool_turns (calls : list ToolCall) (contents : list string)
  : list message :=
  map (fun p => ToolMessage (tc_id (fst p)) (snd p)) (combine calls contents).

(** Reading a conversation after its user turn: [pending] are the ids of
    the requests of the last assistant turn that have no result yet.  A tool
    result turn must carry the first pending id; an assistant turn must come
    when no id is pending.  The result is the ids left pending at the end. *)
Fixpoint follows (pending : list string) (l : list message)
  : option (list string) :=
  match l with
  | [] => Some pending
  | ToolMessage id _ :: l' =>
      match pending with
      | p :: ps => if String.eqb id p then follows ps l' else None
      | [] => None
      end
  | AssistantMessage _ calls :: l' =>
      match pending with
      | [] => follows (map tc_id calls) l'
      | _ :: _ => None
      end
  | UserMessage _ :: _ => None
  end.

Definition pending_of (l : list message) : option (list string) :=
  match l with
  | UserMessage _ :: l' => follows [] l'
  | _ => None
  end.

(** Every tool result turn answers, in order, a request of the assistant
    turn before it, and every assistant turn but the last has all its
    results. *)
Definition conversation_ok (l : list message) : bool :=
  match pending_of l with Some _ => true | None => false end.

(** The same, and the last assistant turn has all its results too. *)
Definition conversation_complete (l : list message) : bool :=
  match pending_of l with Some [] => true | _ => false end.

Section ClientFacts.
Context {C : Collaborators}.

Lemma call_tool_eq (self : MCPClient) c name args (st : state C) :
  connector self = Some c -> session c = Some tt ->
  call_tool self name args st
  = match session_call_tool (world st) name args with
    | (w, Returns obj) => (moved (printed st [log_call name args]) w, Return obj)
    | (w, Raises e) =>
        if is_Exception e then
          (printed (moved (printed st [log_call name args]) w) [log_fault e],
           Return (fault_result e))
        else (moved (printed st [log_call name args]) w, Raise e)
    end.
Proof.
  intros Hc Hs. unfold call_tool. rewrite Hc, Hs.
  unfold bind, try_except, call, print, of_reply, ret, raise. simpl.
  destruct (session_call_tool (world st) name args) as [w [obj | e]]; simpl;
    [reflexivity|].
  destruct (is_Exception e); reflexivity.
Qed.

Lemma call_tool_not_connected (self : MCPClient) name args (st : state C) :
  (connector self = None
   \/ exists c, connector self = Some c /\ session c = None) ->
  call_tool self name args st = (st, Raise session_not_initialized).
Proof.
  unfold call_tool. intros [H | (c & H & Hs)]; rewrite H; [reflexivity|].
  now rewrite Hs.
Qed.

(** [call_tool] leaves the conversation alone and never runs out of fuel. *)
Lemma call_tool_messages (self : MCPClient) name args (st st' : state C) r :
  call_tool self name args st = (st', r) ->
  messages st' = messages st /\ r <> OutOfFuel.
Proof.
  destruct (connector self) as [c|] eqn:Hc.
  - destruct (session c) as [[]|] eqn:Hs.
    + rewrite (call_tool_eq self c name args st Hc Hs).
      destruct (session_call_tool (world st) name args) as [w [obj | e]].
      * intros [= <- <-]. split; [reflexivity | discriminate].
      * destruct (is_Exception e); intros [= <- <-];
          (split; [reflexivity | discriminate]).
    + rewrite call_tool_not_connected by (right; eauto).
      intros [= <- <-]. split; [reflexivity | discriminate].
  - rewrite call_tool_not_connected by now left.
    intros [= <- <-]. split; [reflexivity | discriminate].
Qed.

(** The body of the loop over the tool calls, step by step. *)
Lemma handle_tool_call_eq (self : MCPClient) tc (st : state C) :
  handle_tool_call self tc st
  = match normalize_arguments (tc_arguments tc) with
    | Raises e => (st, Raise e)
    | Returns args =>
        match call_tool self (tc_name tc) args st with
        | (st1, Return obj) =>
            match getattr obj "content" with
            | Raises e => (st1, Raise e)
            | Returns c =>
                match normalize_content c with
                | Raises e => (st1, Raise e)
                | Returns text =>
                    (printed (appended st1 [ToolMessage (tc_id tc) text])
                             [log_result (tc_name tc) text],
                     Return tt)
                end
            end
        | (st1, Raise e) => (st1, Raise e)
        | (st1, OutOfFuel) => (st1, OutOfFuel)
        end
    end.
Proof.
  unfold handle_tool_call, bind.
  destruct (normalize_arguments (tc_arguments tc)) as [args | e]; simpl;
    [| reflexivity].
  destruct (call_tool self (tc_name tc) args st) as [st1 [obj | e |]];
    try reflexivity.
  destruct (getattr obj "content") as [c | e]; simpl; [| reflexivity].
  destruct (normalize_content c) as [text | e]; reflexivity.
Qed.

(** What a tool call adds to the conversation: one result turn with the id
    of the request when it returns, nothing otherwise. *)
Lemma handle_tool_call_messages (self : MCPClient) tc (st st' : state C) r :
  handle_tool_call self tc st = (st', r) ->
  (r = Return tt
   /\ exists text, messages st' = (messages st ++ [ToolMessage (tc_id tc) text])%list)
  \/ ((exists e, r = Raise e) /\ messages st' = messages st).
Proof.
  rewrite handle_tool_call_eq.
  destruct (normalize_arguments (tc_arguments tc)) as [args | e].
  2:{ intros [= <- <-]. right. eauto. }
  destruct (call_tool self (tc_name tc) args st) as [st1 r1] eqn:Ecall.
  apply call_tool_messages in Ecall as [Hm Hf].
  destruct r1 as [obj | e |]; [| intros [= <- <-]; right; eauto | congruence].
  destruct (getattr obj "content") as [c | e];
    [| intros [= <- <-]; right; eauto].
  destruct (normalize_content c) as [text | e];
    [| intros [= <- <-]; right; eauto].
  intros [= <- <-]. left. split; [reflexivity|]. exists text. simpl. now rewrite Hm.
Qed.

Lemma for_each_app {A} (l1 l2 : list A) (body : A -> M C unit) (st : state C) :
  for_each (l1 ++ l2) body st
  = match for_each l1 body st with
    | (st1, Return _) => for_each l2 body st1
    | other => other
    end.
Proof.
  revert st. induction l1 as [|x l1 IH]; intros st; simpl; [reflexivity|].
  unfold bind. destruct (body x st) as [st1 [[] | e |]]; auto.
Qed.

(** The loop over the tool calls adds the result turns of the requests it
    handled, in their order: of all of them when it returns, of the first
    ones when a call raised. *)
Lemma for_each_messages (self : MCPClient) calls :
  forall (st st' : state C) r,
    for_each calls (handle_tool_call self) st = (st', r) ->
    exists contents,
      messages st' = (messages st ++ tool_turns calls contents)%list
      /\ ((r = Return tt /\ List.length contents = List.length calls)
          \/ ((exists e, r = Raise e)
              /\ List.length contents < List.length calls)).
Proof.
  induction calls as [|tc calls IH]; intros st st' r; simpl.
  - intros [= <- <-]. exists []. split; [now rewrite List.app_nil_r | now left].
  - unfold bind.
    destruct (handle_tool_call self tc st) as [st1 r1] eqn:E.
    apply handle_tool_call_messages in E
        as [(-> & text & Hm) | ((e & ->) & Hm)].
    + intros H. apply IH in H as (contents & Hm' & Hr).
      exists (text :: contents). split.
      * rewrite Hm', Hm, <- List.app_assoc. reflexivity.
      * simpl. destruct Hr as [(-> & Hl) | (He & Hl)];
          [left | right]; split; auto; lia.
    + intros [= <- <-]. exists []. split.
      * now rewrite Hm, List.app_nil_r.
      * right. split; [eauto | simpl; lia].
Qed.

Lemma follows_app p l1 l2 :
  follows p (l1 ++ l2)
  = match follows p l1 with
    | Some p' => follows p' l2
    | None => None
    end.
Proof.
  revert p. induction l1 as [|m l1 IH]; intros p; simpl; [reflexivity|].
  destruct m as [q | c calls | id text]; [reflexivity | |].
  - destruct p; [apply IH | reflexivity].
  - destruct p as [|x p]; [reflexivity|].
    destruct (String.eqb id x); [apply IH | reflexivity].
Qed.

Lemma follows_tool_turns calls contents :
  List.length contents <= List.length calls ->
  follows (map tc_id calls) (tool_turns calls contents)
  = Some (map tc_id (skipn (List.length contents) calls)).
Proof.
  revert contents. induction calls as [|tc calls IH]; intros [|text contents];
    simpl; intros H; try reflexivity; try lia.
  rewrite String.eqb_refl. apply IH. lia.
Qed.

Lemma pending_of_app l l2 p :
  pending_of l = Some p -> pending_of (l ++ l2) = follows p l2.
Proof.
  destruct l as [|[q | |] l]; try discriminate. simpl.
  intros H. now rewrite follows_app, H.
Qed.

(** The loop of [process_query] keeps the conversation well formed; when
    it returns, every assistant turn has all its results. *)
Lemma query_loop_conversation (self : MCPClient) decls fuel :
  forall response final_text (st st' : state C) r,
    pending_of (messages st) = Some [] ->
    query_loop fuel self decls response final_text st = (st', r) ->
    exists p, pending_of (messages st') = Some p
              /\ (forall x, r = Return x -> p = []).
Proof.
  induction fuel as [|fuel IH]; intros response final_text st st' r Hp; simpl.
  - intros [= <- <-]. exists []. split; [exact Hp | discriminate].
  - unfold bind at 1.
    destruct response as [|msg more]; simpl.
    { intros [= <- <-]. exists []. split; [exact Hp | discriminate]. }
    destruct (msg_tool_calls msg) as [[|tc calls]|] eqn:Ecalls;
      try (intros [= <- <-]; exists []; split; [exact Hp | reflexivity]).
    unfold bind, append_message, get_messages.
    destruct (for_each (tc :: calls) (handle_tool_call self)
                       (mkState (world st) (stdout st)
                                (messages st ++ [AssistantMessage (msg_content msg) (tc :: calls)])))
      as [st1 r1] eqn:Efor.
    apply for_each_messages in Efor as (contents & Hm & Hr).
    assert (Hp1 : pending_of (messages st1)
                  = Some (map tc_id (skipn (List.length contents) (tc :: calls)))).
    { rewrite Hm. cbn [messages]. rewrite <- List.app_assoc.
      rewrite (pending_of_app _ _ _ Hp). cbn [app follows].
      apply follows_tool_turns. destruct Hr as [[_ ->] | [_ Hl]]; lia. }
    destruct Hr as [(-> & Hl) | ((e & ->) & Hl)].
    + rewrite Hl, skipn_all in Hp1. simpl in Hp1.
      unfold call.
      destruct (chat_create (world st1) (messages st1) decls) as [w [response' | e]];
        simpl.
      * intros H. eapply IH; [| exact H]. exact Hp1.
      * intros [= <- <-]. exists []. split; [exact Hp1 | discriminate].
    + intros [= <- <-]. eexists. split; [exact Hp1 | discriminate].
Qed.

(** The loop of [process_query] at a response with tool calls, and at one
    without. *)
Lemma query_loop_calls_eq (self : MCPClient) decls fuel msg more calls
      final_text (st : state C) :
  msg_tool_calls msg = Some calls -> calls <> [] ->
  query_loop (S fuel) self decls (msg :: more) final_text st
  = match for_each calls (handle_tool_call self)
                   (appended st [AssistantMessage (msg_content msg) calls]) with
    | (st1, Return _) =>
        match chat_create (world st1) (messages st1) decls with
        | (w, Returns response) =>
            query_loop fuel self decls response final_text (moved st1 w)
        | (w, Raises e) => (moved st1 w, Raise e)
        end
    | (st1, Raise e) => (st1, Raise e)
    | (st1, OutOfFuel) => (st1, OutOfFuel)
    end.
Proof.
  intros Hcalls Hne. cbn [query_loop]. unfold bind at 1.
  cbn [first_choice of_reply ret]. rewrite Hcalls.
  destruct calls as [|tc calls]; [congruence|].
  unfold bind, append_message, get_messages, call, appended, moved.
  destruct (for_each (tc :: calls) (handle_tool_call self) _)
    as [st1 [[] | e |]]; try reflexivity.
  cbn [world messages stdout].
  destruct (chat_create (world st1) (messages st1) decls) as [w [response | e]];
    reflexivity.
Qed.

Lemma query_loop_final_eq (self : MCPClient) decls fuel msg more final_text
      (st : state C) :
  msg_tool_calls msg = None \/ msg_tool_calls msg = Some [] ->
  query_loop (S fuel) self decls (msg :: more) final_text st
  = (st, Return (final_text ++ [msg_content msg])%list).
Proof.
  intros H. cbn [query_loop]. unfold bind.
  cbn [first_choice of_reply ret]. now destruct H as [-> | ->].
Qed.

(** [process_query], step by step. *)
Lemma process_query_eq (self : MCPClient) fuel query (st : state C) :
  process_query fuel self query st
  = match connector self with
    | None =>
        (mkState (world st) (stdout st) [UserMessage query],
         Raise (mkExn AttributeError "'NoneType' object has no attribute 'tools'"))
    | Some c =>
        match chat_create (world st) [UserMessage query] (catalog_decls c) with
        | (w, Raises e) => (mkState w (stdout st) [UserMessage query], Raise e)
        | (w, Returns response) =>
            match query_loop fuel self (catalog_decls c) response []
                             (mkState w (stdout st) [UserMessage query]) with
            | (st', Return final_text) =>
                (st', match join_items LF final_text with
                      | Returns text => Return text
                      | Raises e => Raise e
                      end)
            | (st', Raise e) => (st', Raise e)
            | (st', OutOfFuel) => (st', OutOfFuel)
            end
        end
    end.
Proof.
  unfold process_query, build_tools_for_deepseek, bind, set_messages,
    get_messages, call. simpl.
  destruct (connector self) as [c|]; [| reflexivity]. simpl.
  fold (catalog_decls c).
  destruct (chat_create (world st) [UserMessage query] (catalog_decls c))
    as [w [response | e]]; simpl; [| reflexivity].
  destruct (query_loop fuel self (catalog_decls c) response []
                       (mkState w (stdout st) [UserMessage query]))
    as [st' [ft | e |]]; try reflexivity.
  unfold of_reply. destruct (join_items LF ft); reflexivity.
Qed.

End ClientFacts.

Section Claims.
Context {C : Collaborators}.

(** The loop of [process_query], started at [response] in the state [st],
    reaches within [fuel] iterations a request to the chat model that raises
    [e], in the state [st']: every turn before it had its tool calls handled
    and its request answered. *)
Inductive loop_fault (self : MCPClient) (decls : list FunctionDecl)
  : nat -> ChatCompletion -> state C -> exn -> state C -> Prop :=
| fault_next fuel msg more calls st st1 w e :
    msg_tool_calls msg = Some calls -> calls <> [] ->
    for_each calls (handle_tool_call self)
             (appended st [AssistantMessage (msg_content msg) calls])
    = (st1, Return tt) ->
    chat_create (world st1) (messages st1) decls = (w, Raises e) ->
    loop_fault self decls (S fuel) (msg :: more) st e (moved st1 w)
| fault_later fuel msg more calls st st1 w response e st' :
    msg_tool_calls msg = Some calls -> calls <> [] ->
    for_each calls (handle_tool_call self)
             (appended st [AssistantMessage (msg_content msg) calls])
    = (st1, Return tt) ->
    chat_create (world st1) (messages st1) decls = (w, Returns response) ->
    loop_fault self decls fuel response (moved st1 w) e st' ->
    loop_fault self decls (S fuel) (msg :: more) st e st'.

(** During [process_query], a request to the chat model raises [e]: the
    first one, or one of the loop. *)
Inductive model_fault (self : MCPClient) (fuel : nat) (query : string)
          (st : state C) : exn -> state C -> Prop :=
| fault_first c w e :
    connector self = Some c ->
    chat_create (world st) [UserMessage query] (catalog_decls c) = (w, Raises e) ->
    model_fault self fuel query st e (mkState w (stdout st) [UserMessage query])
| fault_in_loop c w response e st' :
    connector self = Some c ->
    chat_create (world st) [UserMessage query] (catalog_decls c)
    = (w, Returns response) ->
    loop_fault self (catalog_decls c) fuel response
               (mkState w (stdout st) [UserMessage query]) e st' ->
    model_fault self fuel query st e st'.

Lemma loop_fault_raises self decls fuel response st e st' :
  loop_fault self decls fuel response st e st' ->
  forall final_text,
    query_loop fuel self decls response final_text st = (st', Raise e).
Proof.
  induction 1 as [fuel msg more calls st st1 w e Hcalls Hne Hfor Hchat
                 | fuel msg more calls st st1 w response e st' Hcalls Hne Hfor
                        Hchat _ IH];
    intros final_text;
    rewrite (query_loop_calls_eq self decls fuel msg more calls final_text st
                                 Hcalls Hne), Hfor, Hchat; auto.
Qed.

(** One iteration of the loop of [chat_loop] when the line is not [quit]. *)
Lemma chat_step_eq self fuel (st : state C) w line :
  input (world st) (LF ++ "Query: ") = (w, Returns line) ->
  String.eqb (Str.lower (Str.strip line)) "quit" = false ->
  chat_step fuel self st
  = match process_query fuel self (Str.strip line) (moved st w) with
    | (st', Return response) => (printed st' [LF ++ response], Return Continue)
    | (st', Raise e) =>
        if is_Exception e then (printed st' (report e), Return Continue)
        else (st', Raise e)
    | (st', OutOfFuel) => (st', OutOfFuel)
    end.
Proof.
  intros Hin Hq. unfold chat_step, try_except, bind at 1, call.
  rewrite Hin. cbn [of_reply ret]. rewrite Hq. unfold bind at 1. unfold moved.
  destruct (process_query fuel self (Str.strip line) _) as [st' [response | e |]];
    try reflexivity.
  destruct (is_Exception e); [| reflexivity].
  unfold bind, print, ret, printed, report. simpl. now rewrite <- List.app_assoc.
Qed.

(** Only a string-form argument makes the normalization raise: with what
    [json.loads] raised. *)
Lemma normalize_arguments_raises arguments e :
  normalize_arguments arguments = Raises e ->
  exists s, arguments = PStr s /\ Json.loads s = Raises e.
Proof.
  destruct arguments as [| | | | s | | | ? ? ? [d|]]; try discriminate.
  intros H. now exists s.
Qed.

(** C1 (as amended): an exception raised while normalizing the arguments of a
    tool call (parsing a string-form argument) is not caught for that call.
    The body of the loop raises it with nothing appended to the conversation
    and no call of the tool; it leaves the [while] loop and [process_query]
    with the conversation as the earlier calls of the turn left it.  It is a
    [JSONDecodeError], an [Exception]: the one handler it meets is that of
    [chat_loop]. *)
Theorem C1_argument_fault_propagates :
  forall (self : MCPClient) decls fuel msg more pre tc post e
         (st st1 : state C),
    msg_tool_calls msg = Some (pre ++ tc :: post)%list ->
    for_each pre (handle_tool_call self)
             (appended st [AssistantMessage (msg_content msg) (pre ++ tc :: post)%list])
    = (st1, Return tt) ->
    normalize_arguments (tc_arguments tc) = Raises e ->
    handle_tool_call self tc st1 = (st1, Raise e)
    /\ (forall final_text,
          query_loop (S fuel) self decls (msg :: more) final_text st
          = (st1, Raise e))
    /\ (forall query c (st0 : state C) w,
          connector self = Some c ->
          decls = catalog_decls c ->
          chat_create (world st0) [UserMessage query] decls
          = (w, Returns (msg :: more)) ->
          st = mkState w (stdout st0) [UserMessage query] ->
          process_query (S fuel) self query st0 = (st1, Raise e))
    /\ exc_class e = JSONDecodeError
    /\ is_Exception e = true.
Proof.
  intros self decls fuel msg more pre tc post e st st1 Hcalls Hpre He.
  assert (Hh : handle_tool_call self tc st1 = (st1, Raise e)).
  { now rewrite handle_tool_call_eq, He. }
  assert (Hl : forall final_text,
             query_loop (S fuel) self decls (msg :: more) final_text st
             = (st1, Raise e)).
  { intros final_text. rewrite (query_loop_calls_eq self decls fuel msg more _ final_text st Hcalls)
      by (destruct pre; discriminate).
    rewrite for_each_app, Hpre. cbn [for_each]. unfold bind at 1.
    now rewrite Hh. }
  destruct (normalize_arguments_raises _ _ He) as (s & _ & Hs).
  apply JsonErrors.loads_raises_decode_error in Hs as [Hcls Hexc].
  repeat split; auto.
  intros query c st0 w Hc -> Hchat ->.
  now rewrite process_query_eq, Hc, Hchat, Hl.
Qed.

(** C2 (as amended): when the session is initialized and the remote call raises
    an [Exception], [call_tool] does not raise: it returns an object whose
    only attribute is [content], the non-empty text made of the prefix and of
    the text of the exception.  The object has no [is_error] (nor [isError])
    attribute.  The body of the loop folds that text into a tool result turn
    and returns, so the loop goes on. *)
Theorem C2_remote_fault_becomes_result :
  forall (self : MCPClient) c name args e w (st : state C),
    connector self = Some c ->
    session c = Some tt ->
    session_call_tool (world st) name args = (w, Raises e) ->
    is_Exception e = true ->
    call_tool self name args st
    = (printed (moved st w) [log_call name args; log_fault e],
       Return (fault_result e))
    /\ fault_result e = [("content", PStr (fault_text e))]
    /\ fault_text e <> ""
    /\ Dict.get "is_error" (fault_result e) = None
    /\ Dict.get "isError" (fault_result e) = None
    /\ (forall tc,
          tc_name tc = name ->
          normalize_arguments (tc_arguments tc) = Returns args ->
          handle_tool_call self tc st
          = (printed (appended (moved st w) [ToolMessage (tc_id tc) (fault_text e)])
                     [log_call name args; log_fault e; log_result name (fault_text e)],
             Return tt)).
Proof.
  intros self c name args e w st Hc Hs Hcall He.
  assert (H1 : call_tool self name args st
               = (printed (moved st w) [log_call name args; log_fault e],
                  Return (fault_result e))).
  { rewrite (call_tool_eq self c name args st Hc Hs), Hcall, He.
    unfold printed, moved. simpl. now rewrite <- List.app_assoc. }
  repeat split; auto; try discriminate.
  intros tc Hn Ha. rewrite handle_tool_call_eq, Ha, Hn, H1.
  unfold printed, appended, moved. simpl. now rewrite <- List.app_assoc.
Qed.

(** C3 (as amended): when the first response of the chat model has no tool
    call and its text is a string, [process_query] returns that text
    unchanged, and the conversation at the end is the user turn alone: one
    user turn and no assistant turn (the final message is returned, not
    appended). *)
Theorem C3_final_answer :
  forall (self : MCPClient) c query fuel w msg more text (st : state C),
    connector self = Some c ->
    chat_create (world st) [UserMessage query] (catalog_decls c)
    = (w, Returns (msg :: more)) ->
    msg_tool_calls msg = None \/ msg_tool_calls msg = Some [] ->
    msg_content msg = Some text ->
    process_query (S fuel) self query st
    = (mkState w (stdout st) [UserMessage query], Return text)
    /\ count_turns is_user_turn [UserMessage query] = 1
    /\ count_turns is_assistant_turn [UserMessage query] = 0.
Proof.
  intros self c query fuel w msg more text st Hc Hchat Hcalls Htext.
  repeat split.
  rewrite process_query_eq, Hc, Hchat, query_loop_final_eq by exact Hcalls.
  rewrite Htext. reflexivity.
Qed.

(** C4 (as amended): the loop over the N tool calls of an assistant turn appends
    tool result turns for the first requests, in the order of the requests
    and each with the id of its request: for all N of them when the loop
    returns, for fewer when a call raised (which ends the query).  So, at the
    end of [process_query], however it ends, every tool result turn of the
    conversation answers in order a request of the assistant turn before it
    and every assistant turn but the last has all its results; when
    [process_query] returns, the last has them too. *)
Theorem C4_results_follow_requests :
  forall (self : MCPClient),
    (forall calls (st st' : state C) r,
        for_each calls (handle_tool_call self) st = (st', r) ->
        exists contents,
          messages st' = (messages st ++ tool_turns calls contents)%list
          /\ List.length contents <= List.length calls
          /\ (r = Return tt -> List.length contents = List.length calls))
    /\ (forall fuel query (st : state C),
          conversation_ok (messages (fst (process_query fuel self query st))) = true
          /\ (forall text,
                snd (process_query fuel self query st) = Return text ->
                conversation_complete
                  (messages (fst (process_query fuel self query st))) = true)).
Proof.
  intros self. split.
  - intros calls st st' r H.
    apply for_each_messages in H as (contents & Hm & Hr).
    exists contents. split; [exact Hm|].
    destruct Hr as [(-> & Hl) | ((e & ->) & Hl)]; split;
      try lia; auto; discriminate.
  - intros fuel query st. rewrite process_query_eq.
    destruct (connector self) as [c|]; [| split; [reflexivity | discriminate]].
    destruct (chat_create (world st) [UserMessage query] (catalog_decls c))
      as [w [response | e]]; [| split; [reflexivity | discriminate]].
    destruct (query_loop fuel self (catalog_decls c) response []
                         (mkState w (stdout st) [UserMessage query]))
      as [st' r] eqn:E.
    apply query_loop_conversation in E as (p & Hp & Hr); [| reflexivity].
    unfold conversation_ok, conversation_complete.
    destruct r as [ft | e |]; cbn [fst snd]; rewrite Hp;
      (split; [reflexivity|]); try discriminate.
    intros _ _. now rewrite (Hr ft eq_refl).
Qed.

(** C5: an exception the chat model client raises during a query, at the
    first request or at a later one, comes out of [process_query] as it is
    (no tool result is made of it).  When it is an [Exception], [chat_loop]
    catches it, prints it, and goes on with the next iteration: the rest of
    the session is the session from the state after the report. *)
Theorem C5_model_fault_reported :
  forall (self : MCPClient) fuel rounds w line e (st0 st' : state C),
    input (world st0) (LF ++ "Query: ") = (w, Returns line) ->
    String.eqb (Str.lower (Str.strip line)) "quit" = false ->
    model_fault self fuel (Str.strip line) (moved st0 w) e st' ->
    is_Exception e = true ->
    process_query fuel self (Str.strip line) (moved st0 w) = (st', Raise e)
    /\ chat_step fuel self st0 = (printed st' (report e), Return Continue)
    /\ chat_rounds (S rounds) fuel self st0
       = chat_rounds rounds fuel self (printed st' (report e)).
Proof.
  intros self fuel rounds w line e st0 st' Hin Hq Hfault He.
  assert (Hp : process_query fuel self (Str.strip line) (moved st0 w)
               = (st', Raise e)).
  { rewrite process_query_eq.
    destruct Hfault as [c w' e Hc Hchat | c w' response e st' Hc Hchat Hloop];
      rewrite Hc, Hchat; [reflexivity|].
    now rewrite (loop_fault_raises _ _ _ _ _ _ _ Hloop []). }
  assert (Hs : chat_step fuel self st0 = (printed st' (report e), Return Continue)).
  { now rewrite (chat_step_eq self fuel st0 w line Hin Hq), Hp, He. }
  repeat split; auto.
  cbn [chat_rounds]. unfold bind. now rewrite Hs.
Qed.

Lemma normalize_arguments_structured V :
  JsonFacts.plain V = true -> is_str V = false ->
  normalize_arguments V = Returns V.
Proof. destruct V; intros P S; try discriminate; reflexivity. Qed.




(** C9: when closing the client session raises, [__aexit__] raises that
    exception right after its first line of log: the world is the one the
    failed close left, the exit of the SSE connection is not called. *)
Theorem C9_session_close_fault_skips_sse :
  forall (self : MCPServerConnector) (st : state C) w e,
    _session_cm self = Some tt ->
    session_exit (world st) = (w, Raises e) ->
    __aexit__ self st
    = (moved (printed st ["[LOG] 正在关闭 MCPServerConnector 资源..."]) w, Raise e).
Proof.
  intros self st w e Hcm Hexit. unfold __aexit__. rewrite Hcm.
  unfold bind, print, call. cbn [world stdout messages]. now rewrite Hexit.
Qed.

(** [async with]: once [__aenter__] has returned, [__aexit__] runs on the
    state the body left, whether the body returned or raised. *)
Lemma async_with_connector_exits {A} (body : MCPServerConnector -> M C A)
      (st st1 st2 : state C) c r :
  __aenter__ MCPServerConnector_init st = (st1, Return c) ->
  body c st1 = (st2, r) ->
  r <> OutOfFuel ->
  fst (async_with_connector body st) = fst (__aexit__ c st2).
Proof.
  intros Henter Hbody Hr. unfold async_with_connector.
  rewrite Henter, Hbody.
  destruct r as [a | e |]; [| | congruence];
    destruct (__aexit__ c st2) as [st3 [[] | e' |]]; reflexivity.
Qed.

(** When closing the session returns, both exits are called, in order. *)
Lemma aexit_closes_both (self : MCPServerConnector) (st : state C) w w' :
  _session_cm self = Some tt -> _sse_cm self = Some tt ->
  session_exit (world st) = (w, Returns tt) ->
  sse_exit w = (w', Returns tt) ->
  __aexit__ self st
  = (moved (printed st ["[LOG] 正在关闭 MCPServerConnector 资源...";
                        "[LOG] ClientSession 已关闭。"; "[LOG] SSE 连接已关闭。"]) w',
     Return tt).
Proof.
  intros Hs Hc Hexit Hsse. unfold __aexit__. rewrite Hs, Hc.
  unfold bind, print, call, ret. cbn [world stdout messages]. rewrite Hexit.
  cbn [of_reply ret world stdout messages]. rewrite Hsse.
  unfold moved, printed. simpl. now rewrite <- !List.app_assoc.
Qed.

(** C10: a content that is a string is the text of the tool result turn,
    unchanged.  A content that is not a string is turned into text: by
    [json.dumps] when it is a dict or the dict of a [model_dump()], by [str()]
    otherwise. *)
Theorem C10_string_content_unchanged :
  forall (s : string),
    normalize_content (PStr s) = Returns s
    /\ (forall (self : MCPClient) tc args obj (st st1 : state C),
          normalize_arguments (tc_arguments tc) = Returns args ->
          call_tool self (tc_name tc) args st = (st1, Return obj) ->
          getattr obj "content" = Returns (PStr s) ->
          handle_tool_call self tc st
          = (printed (appended st1 [ToolMessage (tc_id tc) s])
                     [log_result (tc_name tc) s],
             Return tt))
    /\ (forall content,
          is_str content = false ->
          normalize_content content
          = match content with
            | PObj _ _ _ (Some (PStr text)) => Returns text
            | PObj _ _ _ (Some dump) => Json.dumps dump
            | PDict _ => Json.dumps content
            | _ => Returns (Repr.str content)
            end).
Proof.
  intros s. repeat split.
  - intros self tc args obj st st1 Ha Hcall Hc.
    now rewrite handle_tool_call_eq, Ha, Hcall, Hc.
  - intros content S. destruct content as [| | | | | | | ? ? ? [[]|]];
      try discriminate S; reflexivity.
Qed.

End Claims.

(** ** The claims on the sessions of [Scenario] *)

Section Runs.
Import Scripted Scenario.

(** The end-to-end session of the specification: the final text is
    returned, the conversation has the user turn, the assistant turn with the
    call and the tool result turn, and the tool received the parsed
    arguments. *)
Example weather_session :
  process_query 3 connected question (start weather)
  = (mkState (mkWorld (environ base) (files base) [] [] [] (catalog base)
                      (Returns tt) false false
                      [[UserMessage question];
                       [UserMessage question;
                        AssistantMessage None
                          [weather_call "call_1" (PStr (dq "{`city`:`Beijing`}"))];
                        ToolMessage "call_1"
                          (dq "{`temperature`: 21, `condition`: `clear`}")]]
                      [("get_weather", beijing)])
             [log_call "get_weather" beijing;
              log_result "get_weather" (dq "{`temperature`: 21, `condition`: `clear`}")]
             [UserMessage question;
              AssistantMessage None
                [weather_call "call_1" (PStr (dq "{`city`:`Beijing`}"))];
              ToolMessage "call_1" (dq "{`temperature`: 21, `condition`: `clear`}")],
     Return answer).
Proof. vm_compute. reflexivity. Qed.

(** C1, counterexample: the arguments of the tool call are a string that is
    not JSON.  The decoding error comes out of [process_query]; no tool result
    turn is in the conversation and the tool was not called. *)
Lemma C1_counterexample :
  snd (process_query 3 connected question (start malformed))
  = Raise Json.expecting_name
  /\ messages (fst (process_query 3 connected question (start malformed)))
     = [UserMessage question;
        AssistantMessage None [weather_call "call_1" (PStr "{city: Beijing}")]]
  /\ dispatched (world (fst (process_query 3 connected question (start malformed))))
     = [].
Proof. vm_compute. repeat split; reflexivity. Qed.

(** C1 on the session [malformed], at the tool call of its assistant turn. *)
Lemma C1_witness :
  handle_tool_call connected (weather_call "call_1" (PStr "{city: Beijing}"))
    (appended (moved (start malformed)
                     (fst (s_chat_create malformed [UserMessage question] [])))
              [UserMessage question;
               AssistantMessage None [weather_call "call_1" (PStr "{city: Beijing}")]])
  = (appended (moved (start malformed)
                     (fst (s_chat_create malformed [UserMessage question] [])))
              [UserMessage question;
               AssistantMessage None [weather_call "call_1" (PStr "{city: Beijing}")]],
     Raise Json.expecting_name).
Proof.
  refine (proj1 (C1_argument_fault_propagates
                   connected [] 2
                   (mkChatMessage None (Some [weather_call "call_1" (PStr "{city: Beijing}")]))
                   [] [] (weather_call "call_1" (PStr "{city: Beijing}")) []
                   Json.expecting_name
                   (appended (moved (start malformed)
                                    (fst (s_chat_create malformed [UserMessage question] [])))
                             [UserMessage question])
                   _ _ _ _));
    vm_compute; reflexivity.
Defined.

(** C2, counterexample: the remote call raises.  [call_tool] returns an
    object with the attribute [content] alone: reading [is_error] (or
    [isError]) from it raises, so no [is_error] field is true. *)
Lemma C2_counterexample :
  snd (call_tool connected "get_weather" beijing (start faulty))
  = Return [("content", PStr (fault_text decode_fault))]
  /\ getattr [("content", PStr (fault_text decode_fault))] "is_error"
     = Raises (mkExn AttributeError "object has no attribute 'is_error'")
  /\ getattr [("content", PStr (fault_text decode_fault))] "isError"
     = Raises (mkExn AttributeError "object has no attribute 'isError'").
Proof. vm_compute. repeat split; reflexivity. Qed.

(** C2 on the session [faulty]. *)
Lemma C2_witness :
  call_tool connected "get_weather" beijing (start faulty)
  = (printed (moved (start faulty)
                    (fst (s_call_tool faulty "get_weather" beijing)))
             [log_call "get_weather" beijing; log_fault decode_fault],
     Return (fault_result decode_fault)).
Proof.
  refine (proj1 (C2_remote_fault_becomes_result
                   connected entered "get_weather" beijing decode_fault
                   _ (start faulty) _ _ _ _));
    vm_compute; reflexivity.
Defined.

(** The query goes on after the fault: the text of the fault is the tool
    result turn and the model is asked again. *)
Example faulty_session :
  snd (process_query 3 connected question (start faulty)) = Return "Sorry."
  /\ messages (fst (process_query 3 connected question (start faulty)))
     = [UserMessage question;
        AssistantMessage None [weather_call "call_1" beijing];
        ToolMessage "call_1" (fault_text decode_fault)].
Proof. vm_compute. split; reflexivity. Qed.

(** C3, counterexample: the first response has no tool call.  The text is
    returned, and the conversation at the end has the user turn and no
    assistant turn. *)
Lemma C3_counterexample :
  snd (process_query 3 connected "Hello" (start direct)) = Return "Hello!"
  /\ messages (fst (process_query 3 connected "Hello" (start direct)))
     = [UserMessage "Hello"]
  /\ count_turns is_assistant_turn
       (messages (fst (process_query 3 connected "Hello" (start direct)))) = 0.
Proof. vm_compute. repeat split; reflexivity. Qed.

(** C3 on the session [direct]. *)
Lemma C3_witness :
  process_query 1 connected "Hello" (start direct)
  = (mkState (fst (s_chat_create direct [UserMessage "Hello"] (catalog_decls entered)))
             [] [UserMessage "Hello"],
     Return "Hello!").
Proof.
  refine (proj1 (C3_final_answer
                   connected entered "Hello" 0 _
                   (mkChatMessage (Some "Hello!") None) [] "Hello!"
                   (start direct) _ _ _ _));
    try (left; reflexivity); vm_compute; reflexivity.
Defined.

(** C4, counterexample: an assistant turn with two tool calls, the second
    with arguments that are not JSON.  One tool result turn follows the
    assistant turn, not two, and the query ends with the decoding error. *)
Lemma C4_counterexample :
  messages (fst (process_query 3 connected question (start half_malformed)))
  = [UserMessage question;
     AssistantMessage None [weather_call "call_1" beijing;
                            weather_call "call_2" (PStr "Shanghai")];
     ToolMessage "call_1" "21"]
  /\ count_turns is_tool_turn
       (messages (fst (process_query 3 connected question (start half_malformed))))
     = 1
  /\ snd (process_query 3 connected question (start half_malformed))
     = Raise (Json.decode_error "Expecting value").
Proof. vm_compute. repeat split; reflexivity. Qed.

(** A session at the terminal: the chat model raises at the first query,
    the exception is printed, the second query is answered, the third line
    quits. *)
Example failing_model_session :
  snd (chat_loop 5 3 connected (start failing_model)) = Return tt
  /\ stdout (fst (chat_loop 5 3 connected (start failing_model)))
     = (["[LOG] MCP客户端开始！"; "[LOG] 输入你的问题或者输'quit'退出"]
        ++ report rate_limited
        ++ [(LF ++ "Hello!")%string; "[LOG] 用户主动退出。"])%list.
Proof. vm_compute. split; reflexivity. Qed.

(** C5 on the session [failing_model], at its first line. *)
Lemma C5_witness :
  chat_step 3 connected (start failing_model)
  = (printed (mkState (fst (s_chat_create (fst (s_input failing_model (LF ++ "Query: ")))
                                          [UserMessage "hi"] (catalog_decls entered)))
                      [] [UserMessage "hi"])
             (report rate_limited),
     Return Continue).
Proof.
  refine (proj1 (proj2 (C5_model_fault_reported
                          connected 3 0 _ " hi " rate_limited (start failing_model)
                          _ _ _ _ _)));
    [ vm_compute; reflexivity
    | vm_compute; reflexivity
    | exact (fault_first connected 3 (Str.strip " hi ")
                         (moved (start failing_model)
                                (fst (s_input failing_model (LF ++ "Query: "))))
                         entered
                         (fst (s_chat_create
                                 (fst (s_input failing_model (LF ++ "Query: ")))
                                 [UserMessage "hi"] (catalog_decls entered)))
                         rate_limited eq_refl eq_refl)
    | reflexivity ].
Defined.




(** C9 on an open connection whose session fails to close: the SSE
    connection stays open. *)
Lemma C9_witness :
  __aexit__ entered (start (opened failing_close))
  = (mkState (opened failing_close)
             ["[LOG] 正在关闭 MCPServerConnector 资源..."] [],
     Raise close_fault)
  /\ sse_open (opened failing_close) = true.
Proof.
  split; [| reflexivity].
  exact (C9_session_close_fault_skips_sse
           entered (start (opened failing_close)) (opened failing_close)
           close_fault eq_refl eq_refl).
Defined.

(** The whole program when closing the session raises: the user quits, the
    exception of the close comes out of [main], and the SSE connection is
    still open. *)
Example failing_close_session :
  snd (main 3 3 (start failing_close)) = Raise close_fault
  /\ sse_open (world (fst (main 3 3 (start failing_close)))) = true
  /\ session_open (world (fst (main 3 3 (start failing_close)))) = true.
Proof. vm_compute. repeat split; reflexivity. Qed.

(** The whole program when nothing fails: both are closed. *)
Example quiet_session :
  snd (main 3 3 (start (with_scripts [] [] [Returns "quit"] (Returns tt))))
  = Return tt
  /\ sse_open (world (fst (main 3 3 (start (with_scripts [] [] [Returns "quit"] (Returns tt))))))
     = false
  /\ session_open (world (fst (main 3 3 (start (with_scripts [] [] [Returns "quit"] (Returns tt))))))
     = false.
Proof. vm_compute. repeat split; reflexivity. Qed.

End Runs.

(** * Further properties of the two files *)

(** ** Dicts: lookup after insertion *)

Module DictFacts.

Section DictFacts.
Context {V : Type}.

Lemma get_set_same k (v : V) d : Dict.get k (Dict.set k v d) = Some v.
Proof.
  induction d as [|[k' v'] d IH]; simpl.
  - now rewrite String.eqb_refl.
  - destruct (String.eqb k k') eqn:E; simpl; [now rewrite String.eqb_refl|].
    now rewrite E.
Qed.

Lemma get_set_other k k' (v : V) d :
  k' <> k -> Dict.get k' (Dict.set k v d) = Dict.get k' d.
Proof.
  intros Hk. apply String.eqb_neq in Hk.
  induction d as [|[k2 v2] d IH]; simpl.
  - now rewrite Hk.
  - destruct (String.eqb k k2) eqn:E; simpl.
    + apply String.eqb_eq in E. subst k2. now rewrite Hk.
    + now rewrite IH.
Qed.

Lemma in_set kv k (v : V) d :
  In kv (Dict.set k v d) -> kv = (k, v) \/ In kv d.
Proof.
  induction d as [|[k' v'] d IH]; simpl.
  - intros [<- | []]. now left.
  - destruct (String.eqb k k'); simpl.
    + intros [<- | H]; auto.
    + intros [<- | H]; auto. destruct (IH H); auto.
Qed.

Lemma keys_set k (v : V) d :
  map fst (Dict.set k v d)
  = if existsb (String.eqb k) (map fst d) then map fst d
    else (map fst d ++ [k])%list.
Proof.
  induction d as [|[k' v'] d IH]; simpl; [reflexivity|].
  destruct (String.eqb k k') eqn:E; simpl.
  - apply String.eqb_eq in E. now subst.
  - rewrite IH. now destruct (existsb (String.eqb k) (map fst d)).
Qed.

Lemma existsb_eqb_In k (l : list string) :
  existsb (String.eqb k) l = true <-> In k l.
Proof.
  rewrite existsb_exists. split.
  - intros (x & Hx & E). apply String.eqb_eq in E. now subst.
  - intros H. exists k. split; [exact H | apply String.eqb_refl].
Qed.

Lemma NoDup_keys_set k (v : V) d :
  NoDup (map fst d) -> NoDup (map fst (Dict.set k v d)).
Proof.
  intros H. rewrite keys_set.
  destruct (existsb (String.eqb k) (map fst d)) eqn:E; [exact H|].
  apply NoDup_app; [exact H | repeat constructor; intros [] | ].
  intros x Hx [<- | []].
  apply existsb_eqb_In in Hx. congruence.
Qed.

Lemma in_keys_set x k (v : V) d :
  In x (map fst (Dict.set k v d)) <-> x = k \/ In x (map fst d).
Proof.
  rewrite keys_set.
  destruct (existsb (String.eqb k) (map fst d)) eqn:E.
  - apply existsb_eqb_In in E. split; [auto | intros [-> | H]; auto].
  - rewrite in_app_iff. simpl. intuition.
Qed.

(** The state of [dict(pairs)] while the pairs are inserted. *)
Lemma fold_set_spec (l : list (string * V)) :
  forall acc,
    NoDup (map fst acc) ->
    let d := fold_left (fun d kv => Dict.set (fst kv) (snd kv) d) l acc in
    NoDup (map fst d)
    /\ (forall k, Dict.get k d
                  = match Dict.get k (List.rev l) with
                    | Some v => Some v
                    | None => Dict.get k acc
                    end)
    /\ (forall k, In k (map fst d) <-> In k (map fst l) \/ In k (map fst acc))
    /\ (forall kv, In kv d -> In kv l \/ In kv acc).
Proof.
  induction l as [|[k v] l IH]; intros acc Hacc; simpl.
  - repeat split; simpl; auto; tauto.
  - destruct (IH (Dict.set k v acc) (NoDup_keys_set k v acc Hacc))
      as (H1 & H2 & H3 & H4).
    repeat split.
    + exact H1.
    + intros k'. rewrite H2.
      assert (G : forall (a b : list (string * V)),
                 Dict.get k' (a ++ b)%list
                 = match Dict.get k' a with
                   | Some x => Some x
                   | None => Dict.get k' b
                   end).
      { intros a b. induction a as [|[k2 v2] a IHa]; simpl; [reflexivity|].
        destruct (String.eqb k' k2); auto. }
      rewrite G. destruct (Dict.get k' (List.rev l)); [reflexivity|].
      simpl. destruct (String.eqb k' k) eqn:E.
      * apply String.eqb_eq in E. subst. apply get_set_same.
      * apply String.eqb_neq in E. now apply get_set_other.
    + intros H. apply H3 in H as [H | H]; [tauto|].
      apply in_keys_set in H as [-> | H]; tauto.
    + intros [[<- | H] | H]; apply H3.
      * right. apply in_keys_set. now left.
      * now left.
      * right. apply in_keys_set. now right.
    + intros kv H. apply H4 in H as [H | H]; [tauto|].
      apply in_set in H as [-> | H]; tauto.
Qed.

(** [dict(pairs)]: the keys are different, they are the keys of the pairs,
    and a key gives the value of the last pair that has it. *)
Lemma of_pairs_spec (l : list (string * V)) :
  NoDup (map fst (Dict.of_pairs l))
  /\ (forall k, Dict.get k (Dict.of_pairs l) = Dict.get k (List.rev l))
  /\ (forall k, In k (map fst (Dict.of_pairs l)) <-> In k (map fst l))
  /\ (forall kv, In kv (Dict.of_pairs l) -> In kv l).
Proof.
  destruct (fold_set_spec l [] (NoDup_nil _)) as (H1 & H2 & H3 & H4).
  repeat split.
  - exact H1.
  - intros k. unfold Dict.of_pairs. rewrite H2.
    now destruct (Dict.get k (List.rev l)).
  - intros H. apply H3 in H as [H | []]. exact H.
  - intros H. apply H3. now left.
  - intros kv H. apply H4 in H as [H | []]. exact H.
Qed.

Lemma get_in k (v : V) d :
  NoDup (map fst d) -> In (k, v) d -> Dict.get k d = Some v.
Proof.
  induction d as [|[k' v'] d IH]; simpl; [intros _ []|].
  intros Hd [[= -> ->] | H].
  - now rewrite String.eqb_refl.
  - inversion Hd as [|? ? Hn Hd']; subst.
    destruct (String.eqb k k') eqn:E; [| auto].
    apply String.eqb_eq in E. subst. exfalso. apply Hn.
    apply (in_map fst) in H. exact H.
Qed.

End DictFacts.

End DictFacts.

(** ** [str.strip()] on a padded word *)

Module StripFacts.

(** A whitespace character of [str.strip()], as its UTF-8 bytes: an ASCII
    one or one of [spaces]. *)
Definition whitespace_of (spaces : list string) (u : string) : bool :=
  existsb (String.eqb u) spaces
  || match u with
     | String c EmptyString => Str.ascii_space c
     | _ => false
     end.

Definition whitespace : string -> bool := whitespace_of Str.wide_spaces.

(** The text made of the characters of [us]. *)
Definition padding (us : list string) : string := fold_right append "" us.

(** An ASCII character that is not whitespace. *)
Definition plain_char (c : ascii) : bool :=
  ((N_of_ascii c <? 128)%N && negb (Str.ascii_space c))%bool.

Lemma rev_onto_app s acc : Str.rev_onto s acc = Str.rev s ++ acc.
Proof.
  unfold Str.rev. revert acc. induction s as [|c s IH]; intros acc; simpl.
  - reflexivity.
  - rewrite IH, (IH (String c "")), StrFacts.append_assoc. reflexivity.
Qed.

Lemma rev_cons c s : Str.rev (String c s) = Str.rev s ++ String c "".
Proof. unfold Str.rev at 1. simpl. apply rev_onto_app. Qed.

Lemma rev_app a b : Str.rev (a ++ b) = Str.rev b ++ Str.rev a.
Proof.
  induction a as [|c a IH]; simpl.
  - now rewrite StrFacts.append_nil_r.
  - now rewrite !rev_cons, IH, StrFacts.append_assoc.
Qed.

Lemma rev_rev s : Str.rev (Str.rev s) = s.
Proof.
  induction s as [|c s IH]; [reflexivity|].
  now rewrite rev_cons, rev_app, IH.
Qed.

Lemma rev_padding us : Str.rev (padding us) = padding (map Str.rev (List.rev us)).
Proof.
  induction us as [|u us IH]; [reflexivity|].
  cbn [padding fold_right List.rev]. fold (padding us).
  rewrite rev_app, IH, map_app. unfold padding.
  rewrite fold_right_app. cbn [map fold_right].
  generalize (map Str.rev (List.rev us)) as l.
  induction l as [|x l IHl]; simpl.
  - now rewrite StrFacts.append_nil_r.
  - now rewrite <- IHl, StrFacts.append_assoc.
Qed.

Section Strip.
Variable spaces : list string.

(** One step of the loop of [lstrip] removes a character of [spaces]. *)
Hypothesis spaces_step :
  Forall (fun u => forall fuel s,
              Str.lstrip_with spaces (S fuel) (u ++ s)
              = Str.lstrip_with spaces fuel s) spaces.

(** No character of [spaces] starts with an ASCII byte. *)
Hypothesis spaces_wide :
  forall c s, plain_char c = true ->
              Str.space_prefix spaces (String c s) = None.

Lemma whitespace_step u fuel s :
  whitespace_of spaces u = true ->
  Str.lstrip_with spaces (S fuel) (u ++ s) = Str.lstrip_with spaces fuel s.
Proof.
  unfold whitespace_of. intros H. apply orb_true_iff in H as [H | H].
  - apply existsb_exists in H as (x & Hin & E). apply String.eqb_eq in E. subst x.
    rewrite Forall_forall in spaces_step. now apply spaces_step.
  - destruct u as [|c [|]]; try discriminate. simpl. now rewrite H.
Qed.

Lemma lstrip_padding us :
  forallb (whitespace_of spaces) us = true ->
  forall fuel s,
    Str.lstrip_with spaces (List.length us + fuel) (padding us ++ s)
    = Str.lstrip_with spaces fuel s.
Proof.
  induction us as [|u us IH]; intros H fuel s; [reflexivity|].
  simpl in H. apply andb_true_iff in H as [Hu Hus].
  cbn [padding fold_right List.length Nat.add]. fold (padding us).
  rewrite StrFacts.append_assoc, whitespace_step by exact Hu. now apply IH.
Qed.

Lemma whitespace_length u :
  whitespace_of spaces u = true -> 1 <= String.length u.
Proof.
  intros H. destruct u as [|c u]; [| simpl; lia].
  unfold whitespace_of in H. rewrite orb_false_r in H.
  apply existsb_exists in H as (x & Hin & E). apply String.eqb_eq in E. subst x.
  pose proof (spaces_wide "a" "" eq_refl) as W. cbn in W.
  destruct (find (fun w => Str.is_prefix w "a") spaces) eqn:F; [discriminate|].
  now pose proof (find_none _ _ F _ Hin).
Qed.

Lemma padding_length us :
  forallb (whitespace_of spaces) us = true ->
  List.length us <= String.length (padding us).
Proof.
  induction us as [|u us IH]; intros H; [simpl; lia|].
  simpl in H. apply andb_true_iff in H as [Hu Hus].
  cbn [padding fold_right List.length]. fold (padding us).
  rewrite StrFacts.length_append.
  pose proof (whitespace_length u Hu). specialize (IH Hus). lia.
Qed.

Lemma lstrip_with_plain fuel c s :
  plain_char c = true ->
  Str.lstrip_with spaces fuel (String c s) = String c s.
Proof.
  intros H. destruct fuel; [reflexivity|].
  cbn [Str.lstrip_with]. now rewrite spaces_wide.
Qed.

(** The loop of [lstrip], with the fuel of [lstrip] and of [rstrip],
    removes a padding before an ASCII character that is not whitespace. *)
Lemma lstrip_with_padded us c s :
  forallb (whitespace_of spaces) us = true ->
  plain_char c = true ->
  Str.lstrip_with spaces (String.length (padding us ++ String c s))
                  (padding us ++ String c s)
  = String c s.
Proof.
  intros Hus Hc. pose proof (padding_length us Hus) as Hl.
  rewrite StrFacts.length_append.
  replace (String.length (padding us) + String.length (String c s))
    with (List.length us
          + (String.length (padding us) - List.length us
             + String.length (String c s))) by lia.
  rewrite lstrip_padding by exact Hus. now apply lstrip_with_plain.
Qed.

End Strip.

Lemma wide_spaces_step :
  Forall (fun u => forall fuel s,
              Str.lstrip_with Str.wide_spaces (S fuel) (u ++ s)
              = Str.lstrip_with Str.wide_spaces fuel s) Str.wide_spaces.
Proof.
  let l := eval vm_compute in Str.wide_spaces in change Str.wide_spaces with l.
  repeat (apply Forall_cons; [intros fuel s; reflexivity |]). apply Forall_nil.
Qed.

Lemma wide_spaces_wide c s :
  plain_char c = true -> Str.space_prefix Str.wide_spaces (String c s) = None.
Proof.
  let l := eval vm_compute in Str.wide_spaces in change Str.wide_spaces with l.
  destruct c as [[] [] [] [] [] [] [] []]; intros H; try discriminate H;
    reflexivity.
Qed.

Lemma rev_spaces_step :
  Forall (fun u => forall fuel s,
              Str.lstrip_with (map Str.rev Str.wide_spaces) (S fuel) (u ++ s)
              = Str.lstrip_with (map Str.rev Str.wide_spaces) fuel s)
         (map Str.rev Str.wide_spaces).
Proof.
  let l := eval vm_compute in (map Str.rev Str.wide_spaces) in
  change (map Str.rev Str.wide_spaces) with l.
  repeat (apply Forall_cons; [intros fuel s; reflexivity |]). apply Forall_nil.
Qed.

Lemma rev_spaces_wide c s :
  plain_char c = true ->
  Str.space_prefix (map Str.rev Str.wide_spaces) (String c s) = None.
Proof.
  let l := eval vm_compute in (map Str.rev Str.wide_spaces) in
  change (map Str.rev Str.wide_spaces) with l.
  destruct c as [[] [] [] [] [] [] [] []]; intros H; try discriminate H;
    reflexivity.
Qed.

Lemma whitespace_rev u :
  whitespace u = true ->
  whitespace_of (map Str.rev Str.wide_spaces) (Str.rev u) = true.
Proof.
  unfold whitespace, whitespace_of. intros H.
  apply orb_true_iff in H as [H | H]; apply orb_true_iff.
  - left. apply existsb_exists in H as (x & Hin & E).
    apply String.eqb_eq in E. subst x. apply existsb_exists.
    exists (Str.rev u). split; [now apply in_map | apply String.eqb_refl].
  - right. destruct u as [|c [|]]; try discriminate. exact H.
Qed.

(** [strip] of a word between two paddings, when the word begins and ends
    with ASCII characters that are not whitespace, is the word. *)
Lemma strip_padded us1 us2 c word d last :
  forallb whitespace us1 = true ->
  forallb whitespace us2 = true ->
  plain_char c = true -> plain_char d = true ->
  Str.rev (String c word) = String d last ->
  Str.strip (padding us1 ++ String c word ++ padding us2) = String c word.
Proof.
  intros H1 H2 Hc Hd Hrev. unfold Str.strip, Str.lstrip.
  change (String c word ++ padding us2) with (String c (word ++ padding us2)).
  rewrite (lstrip_with_padded Str.wide_spaces wide_spaces_step wide_spaces_wide)
    by assumption.
  unfold Str.rstrip.
  assert (E : Str.rev (String c (word ++ padding us2))
              = padding (map Str.rev (List.rev us2)) ++ String d last).
  { change (String c (word ++ padding us2)) with (String c word ++ padding us2).
    now rewrite rev_app, rev_padding, Hrev. }
  assert (L : String.length (String c (word ++ padding us2))
              = String.length (padding (map Str.rev (List.rev us2)) ++ String d last)).
  { rewrite <- E. clear. generalize (String c (word ++ padding us2)) as s.
    induction s as [|a s IH]; [reflexivity|].
    rewrite rev_cons, StrFacts.length_append, <- IH. simpl. lia. }
  rewrite E, L.
  rewrite (lstrip_with_padded _ rev_spaces_step rev_spaces_wide).
  - now rewrite <- Hrev, rev_rev.
  - rewrite forallb_forall. intros x Hx. apply in_map_iff in Hx as (u & <- & Hu).
    apply whitespace_rev. rewrite forallb_forall in H2. apply H2.
    now apply in_rev.
  - exact Hd.
Qed.

(** The words [lower()] turns into [quit]: the sixteen ways of writing it. *)
Lemma lower_quit word :
  Str.lower word = "quit" ->
  exists c w d last,
    word = String c w /\ plain_char c = true /\ plain_char d = true
    /\ Str.rev word = String d last.
Proof.
  destruct word as [|c1 [|c2 [|c3 [|c4 [|]]]]]; try discriminate.
  cbn [Str.lower]. intros [= H1 H2 H3 H4].
  exists c1, (String c2 (String c3 (String c4 ""))), c4,
    (String c3 (String c2 (String c1 ""))).
  repeat split.
  - clear - H1. revert H1.
    destruct c1 as [[] [] [] [] [] [] [] []]; intros H; try discriminate H;
      reflexivity.
  - clear - H4. revert H4.
    destruct c4 as [[] [] [] [] [] [] [] []]; intros H; try discriminate H;
      reflexivity.
Qed.

Lemma strip_quit us1 us2 word :
  forallb whitespace us1 = true ->
  forallb whitespace us2 = true ->
  Str.lower word = "quit" ->
  Str.strip (padding us1 ++ word ++ padding us2) = word.
Proof.
  intros H1 H2 Hq.
  destruct (lower_quit word Hq) as (c & w & d & last & -> & Hc & Hd & Hrev).
  now apply (strip_padded us1 us2 c w d last).
Qed.

End StripFacts.

(** ** The connector and the program *)

(** [config["mcpServers"]["amap-amap-sse"]["url"]], and the same from the
    text of the file. *)
Definition url_of_config (config : pyval) : reply pyval :=
  match subscript config "mcpServers" with
  | Raises e => Raises e
  | Returns servers =>
      match subscript servers "amap-amap-sse" with
      | Raises e => Raises e
      | Returns server => subscript server "url"
      end
  end.

Definition url_of_text (text : string) : reply pyval :=
  match Json.loads text with
  | Raises e => Raises e
  | Returns config => url_of_config config
  end.

(** The lines [__aenter__], [__aexit__], [__init__] and [main] print. *)
Definition log_connect (url : pyval) : string :=
  "[LOG] 尝试连接到 MCP Server: " ++ Repr.str url.

Definition log_entered (url : pyval) (steps : nat) : list string :=
  firstn steps [log_connect url; "[LOG] SSE 流已获取。";
                "[LOG] ClientSession 已创建。"; "[LOG] Session 已初始化。"].

Definition log_ready (url : pyval) (count : nat) : list string :=
  (log_entered url 4
   ++ [("[LOG] 成功获取 " ++ nat_str count ++ " 个工具。")%string;
       "[LOG] 连接成功并准备就绪。"])%list.

Definition log_init : string := "[LOG] MCPClient 初始化完成。".

Definition log_closing : list string :=
  ["[LOG] 正在关闭 MCPServerConnector 资源..."; "[LOG] ClientSession 已关闭。";
   "[LOG] SSE 连接已关闭。"].

Definition log_interrupted : string := "[LOG] 用户中断，正在优雅退出...".

Definition log_end : string := "结束了".

Definition log_start : list string :=
  ["[LOG] MCP客户端开始！"; "[LOG] 输入你的问题或者输'quit'退出"].

Definition log_quit : string := "[LOG] 用户主动退出。".

(** The catalog [__aenter__] makes of the tools the server lists, and the
    connector it returns. *)
Definition catalog_of (listed : list Tool) : list (string * Tool) :=
  Dict.of_pairs (map (fun tool => (tool_name tool, tool)) listed).

Definition entered_connector (listed : list Tool) : MCPServerConnector :=
  mkConnector (Some tt) (catalog_of listed) (Some tt) (Some tt) (Some tt).

Definition decl_of (tool : Tool) : FunctionDecl :=
  mkFunctionDecl (tool_name tool) (tool_description tool) (tool_inputSchema tool).

Definition key_missing : exn :=
  mkExn RuntimeError "DEEPSEEK_API_KEY not set in environment variables.".

Section Extras.
Context {C : Collaborators}.

Lemma printed_printed (st : state C) a b :
  printed (printed st a) b = printed st (a ++ b)%list.
Proof. unfold printed. simpl. now rewrite <- List.app_assoc. Qed.

Lemma printed_moved (st : state C) w a :
  printed (moved st w) a = moved (printed st a) w.
Proof. reflexivity. Qed.

(** [__aenter__], step by step. *)
Lemma aenter_eq (self : MCPServerConnector) (st : state C) :
  __aenter__ self st
  = match read_file (world st) "mcp.json" with
    | (w0, Raises e) => (moved st w0, Raise e)
    | (w0, Returns text) =>
        match url_of_text text with
        | Raises e => (moved st w0, Raise e)
        | Returns url =>
            match sse_enter w0 url with
            | (w1, Raises e) => (moved (printed st (log_entered url 1)) w1, Raise e)
            | (w1, Returns _) =>
                match session_enter w1 with
                | (w2, Raises e) =>
                    (moved (printed st (log_entered url 2)) w2, Raise e)
                | (w2, Returns _) =>
                    match session_initialize w2 with
                    | (w3, Raises e) =>
                        (moved (printed st (log_entered url 3)) w3, Raise e)
                    | (w3, Returns _) =>
                        match session_list_tools w3 with
                        | (w4, Raises e) =>
                            (moved (printed st (log_entered url 4)) w4, Raise e)
                        | (w4, Returns listed) =>
                            (moved (printed st (log_ready url
                                                  (List.length (catalog_of listed))))
                                   w4,
                             Return (entered_connector listed))
                        end
                    end
                end
            end
        end
    end.
Proof.
  unfold __aenter__, url_of_text, url_of_config, bind, call, print, of_reply,
    ret, raise, moved, printed, log_ready, log_entered.
  cbn [world stdout messages].
  destruct (read_file (world st) "mcp.json") as [w0 [text | e]];
    [| reflexivity]; cbn [world stdout messages].
  destruct (Json.loads text) as [config | e]; [| reflexivity].
  destruct (subscript config "mcpServers") as [servers | e]; [| reflexivity].
  destruct (subscript servers "amap-amap-sse") as [server | e]; [| reflexivity].
  destruct (subscript server "url") as [url | e]; [| reflexivity].
  cbn [world stdout messages].
  destruct (sse_enter w0 url) as [w1 [[] | e]]; [| reflexivity];
    cbn [world stdout messages].
  destruct (session_enter w1) as [w2 [[] | e]];
    [| simpl; now rewrite <- !List.app_assoc]; cbn [world stdout messages].
  destruct (session_initialize w2) as [w3 [[] | e]];
    [| simpl; now rewrite <- !List.app_assoc]; cbn [world stdout messages].
  destruct (session_list_tools w3) as [w4 [listed | e]];
    simpl; now rewrite <- !List.app_assoc.
Qed.

(** [main], step by step. *)
Lemma main_eq rounds fuel (st : state C) :
  main rounds fuel st
  = match getenv (world st) "DEEPSEEK_API_KEY" with
    | None | Some EmptyString => (st, Raise key_missing)
    | Some _ =>
        match async_with_connector
                (fun connector => chat_loop rounds fuel (mkClient (Some connector)))
                (printed st [log_init]) with
        | (st', Return _) => (printed st' [log_end], Return tt)
        | (st', Raise e) =>
            if is_interrupt e
            then (printed st' [log_interrupted; log_end], Return tt)
            else (printed st' [log_end], Raise e)
        | (st', OutOfFuel) => (st', OutOfFuel)
        end
    end.
Proof.
  unfold main, MCPClient_init, bind, try_finally, try_except_when, print, ret,
    raise, printed, log_init, key_missing.
  destruct (getenv (world st) "DEEPSEEK_API_KEY") as [[|a key]|];
    try reflexivity.
  cbn [world stdout messages].
  destruct (async_with_connector _ _) as [st' [[] | e |]]; try reflexivity.
  destruct (is_interrupt e); [| reflexivity].
  simpl. now rewrite <- List.app_assoc.
Qed.

(** X1: without the API key (unset or empty), [main] raises the
    [RuntimeError] of [__init__] at once: nothing is printed, not even the
    last line of [main], and nothing is read or opened. *)
Theorem main_without_api_key :
  forall rounds fuel (st : state C),
    getenv (world st) "DEEPSEEK_API_KEY" = None
    \/ getenv (world st) "DEEPSEEK_API_KEY" = Some "" ->
    main rounds fuel st = (st, Raise key_missing).
Proof.
  intros rounds fuel st H. rewrite main_eq. now destruct H as [-> | ->].
Qed.

(** X2: when the configuration file cannot be read, with an exception that
    is not an interrupt, [main] raises it after the line of [__init__] and
    its own last line: the connection is not opened and the chat loop does
    not start (the world is the one the failed read left). *)
Theorem main_config_unreadable :
  forall rounds fuel (st : state C) a key w e,
    getenv (world st) "DEEPSEEK_API_KEY" = Some (String a key) ->
    read_file (world st) "mcp.json" = (w, Raises e) ->
    is_interrupt e = false ->
    main rounds fuel st = (moved (printed st [log_init; log_end]) w, Raise e).
Proof.
  intros rounds fuel st a key w e Hkey Hread He.
  rewrite main_eq, Hkey. unfold async_with_connector.
  rewrite aenter_eq. cbn [printed world]. rewrite Hread, He.
  unfold moved, printed. simpl. now rewrite <- List.app_assoc.
Qed.

Lemma subscript_raises v key e :
  subscript v key = Raises e ->
  exc_class e = KeyError \/ exc_class e = TypeError.
Proof.
  destruct v as [| | | | | | d |]; simpl;
    try (intros [= <-]; now right).
  destruct (Dict.get key d); [discriminate|]. intros [= <-]. now left.
Qed.

(** X3: when the text of the configuration file is not JSON, or lacks one of
    the keys of the path to the URL, [__aenter__] raises the exception of
    the decoding or of the lookup (a [JSONDecodeError], a [KeyError] or a
    [TypeError]) before it prints or opens anything. *)
Theorem aenter_bad_config :
  forall (self : MCPServerConnector) (st : state C) w text e,
    read_file (world st) "mcp.json" = (w, Returns text) ->
    url_of_text text = Raises e ->
    __aenter__ self st = (moved st w, Raise e)
    /\ (exc_class e = JSONDecodeError \/ exc_class e = KeyError
        \/ exc_class e = TypeError).
Proof.
  intros self st w text e Hread Hurl. split.
  - now rewrite aenter_eq, Hread, Hurl.
  - unfold url_of_text in Hurl.
    destruct (Json.loads text) as [config | e'] eqn:El.
    + right. unfold url_of_config in Hurl.
      destruct (subscript config "mcpServers") as [servers | e1] eqn:E1;
        [| injection Hurl as <-; exact (subscript_raises _ _ _ E1)].
      destruct (subscript servers "amap-amap-sse") as [server | e2] eqn:E2;
        [| injection Hurl as <-; exact (subscript_raises _ _ _ E2)].
      exact (subscript_raises _ _ _ Hurl).
    + injection Hurl as <-. left.
      exact (proj1 (JsonErrors.loads_raises_decode_error _ _ El)).
Qed.

(** X4: when [session.initialize()] or [session.list_tools()] raises,
    after the SSE connection and the client session were entered,
    [__aenter__] raises; [async with] then runs neither the body nor
    [__aexit__]: the world is the one the failed call left, no exit was
    called on it. *)
Theorem enter_fault_skips_exit :
  forall {A} (body : MCPServerConnector -> M C A) (st : state C)
         w0 text url w1 w2,
    read_file (world st) "mcp.json" = (w0, Returns text) ->
    url_of_text text = Returns url ->
    sse_enter w0 url = (w1, Returns tt) ->
    session_enter w1 = (w2, Returns tt) ->
    (forall w3 e,
        session_initialize w2 = (w3, Raises e) ->
        async_with_connector body st
        = (moved (printed st (log_entered url 3)) w3, Raise e))
    /\ (forall w3 w4 e,
          session_initialize w2 = (w3, Returns tt) ->
          session_list_tools w3 = (w4, Raises e) ->
          async_with_connector body st
          = (moved (printed st (log_entered url 4)) w4, Raise e)).
Proof.
  intros A body st w0 text url w1 w2 Hread Hurl Hsse Hsess.
  split.
  - intros w3 e Hinit. unfold async_with_connector.
    now rewrite aenter_eq, Hread, Hurl, Hsse, Hsess, Hinit.
  - intros w3 w4 e Hinit Hlist. unfold async_with_connector.
    now rewrite aenter_eq, Hread, Hurl, Hsse, Hsess, Hinit, Hlist.
Qed.

(** What [__aenter__] returns is the connector made of the tools the last
    call listed. *)
Lemma aenter_returns (self : MCPServerConnector) (st st' : state C) c :
  __aenter__ self st = (st', Return c) ->
  exists w listed,
    session_list_tools w = (world st', Returns listed)
    /\ c = entered_connector listed.
Proof.
  rewrite aenter_eq.
  destruct (read_file (world st) "mcp.json") as [w0 [text | e]]; [| discriminate].
  destruct (url_of_text text) as [url | e]; [| discriminate].
  destruct (sse_enter w0 url) as [w1 [[] | e]]; [| discriminate].
  destruct (session_enter w1) as [w2 [[] | e]]; [| discriminate].
  destruct (session_initialize w2) as [w3 [[] | e]]; [| discriminate].
  destruct (session_list_tools w3) as [w4 [listed | e]] eqn:E; [| discriminate].
  intros [= <- <-]. exists w3, listed. split; [exact E | reflexivity].
Qed.

Lemma get_tool_pairs name (l : list Tool) :
  Dict.get name (map (fun tool => (tool_name tool, tool)) l)
  = find (fun tool => String.eqb name (tool_name tool)) l.
Proof.
  induction l as [|t l IH]; simpl; [reflexivity|].
  now destruct (String.eqb name (tool_name t)).
Qed.

(** X5: after [__aenter__] has returned a connector, its session and its
    two context managers are set, and the declarations
    [build_tools_for_deepseek] gives for it have names that are all
    different and are the names of the tools the server listed; each
    declaration is that of the last listed tool of its name. *)
Theorem catalog_after_enter :
  forall (self : MCPServerConnector) (st st' : state C) c,
    __aenter__ self st = (st', Return c) ->
    session c = Some tt /\ _sse_cm c = Some tt /\ _session_cm c = Some tt
    /\ (forall st0 : state C,
          build_tools_for_deepseek (mkClient (Some c)) st0
          = (st0, Return (catalog_decls c)))
    /\ NoDup (map fn_name (catalog_decls c))
    /\ exists w listed,
        session_list_tools w = (world st', Returns listed)
        /\ (forall name,
              In name (map fn_name (catalog_decls c))
              <-> In name (map tool_name listed))
        /\ (forall d,
              In d (catalog_decls c) ->
              find (fun tool => String.eqb (fn_name d) (tool_name tool))
                   (List.rev listed)
              = Some (mkTool (fn_name d) (fn_description d) (fn_input_schema d))).
Proof.
  intros self st st' c H.
  destruct (aenter_returns self st st' c H) as (w & listed & Hlist & ->).
  destruct (DictFacts.of_pairs_spec
              (map (fun tool => (tool_name tool, tool)) listed))
    as (Hnd & Hget & Hkeys & Hin).
  assert (Hnames : forall d : list (string * Tool),
             (forall kv, In kv d -> fst kv = tool_name (snd kv)) ->
             map fn_name (map decl_of (Dict.values d)) = map fst d).
  { intros d Hd. unfold Dict.values. rewrite !map_map.
    apply map_ext_in. intros kv Hkv. simpl. symmetry. now apply Hd. }
  assert (Hentries : forall kv, In kv (catalog_of listed) ->
                                fst kv = tool_name (snd kv)).
  { intros kv Hkv. apply Hin in Hkv. apply in_map_iff in Hkv as (t & <- & _).
    reflexivity. }
  assert (E : map fn_name (catalog_decls (entered_connector listed))
              = map fst (catalog_of listed)).
  { exact (Hnames _ Hentries). }
  repeat split; try reflexivity.
  - rewrite E. exact Hnd.
  - exists w, listed. split; [exact Hlist|]. split.
    + intros name. rewrite E. unfold catalog_of. rewrite Hkeys.
      now rewrite map_map.
    + intros d Hd. unfold catalog_decls, Dict.values in Hd.
      cbn [tools entered_connector] in Hd.
      apply in_map_iff in Hd as (t & <- & Ht).
      apply in_map_iff in Ht as ([k t'] & <- & Hkv). cbn [snd fn_name].
      pose proof (Hentries _ Hkv) as Hk. cbn [fst snd] in Hk. subst k.
      pose proof (DictFacts.get_in _ _ _ Hnd Hkv) as G.
      unfold catalog_of in G. rewrite Hget, <- map_rev, get_tool_pairs in G.
      rewrite G. now destruct t'.
Qed.

(** X6: an exception of the remote call that is not an [Exception] (a
    [KeyboardInterrupt], a cancellation) is not turned into a tool result:
    [call_tool] raises it after the line of log of the call, the body of the
    loop raises it with no tool result turn appended, and the calls after it
    in the assistant turn are not made. *)
Theorem interrupt_in_tool_call_propagates :
  forall (self : MCPClient) c tc args w e post (st : state C),
    connector self = Some c ->
    session c = Some tt ->
    normalize_arguments (tc_arguments tc) = Returns args ->
    session_call_tool (world st) (tc_name tc) args = (w, Raises e) ->
    is_Exception e = false ->
    call_tool self (tc_name tc) args st
    = (moved (printed st [log_call (tc_name tc) args]) w, Raise e)
    /\ for_each (tc :: post) (handle_tool_call self) st
       = (moved (printed st [log_call (tc_name tc) args]) w, Raise e).
Proof.
  intros self c tc args w e post st Hc Hs Ha Hcall He.
  assert (H1 : call_tool self (tc_name tc) args st
               = (moved (printed st [log_call (tc_name tc) args]) w, Raise e)).
  { now rewrite (call_tool_eq self c _ _ st Hc Hs), Hcall, He. }
  split; [exact H1|].
  cbn [for_each]. unfold bind. now rewrite handle_tool_call_eq, Ha, H1.
Qed.

(** The connector [__aenter__] returns is closed by [__aexit__] with both
    exits, when they return. *)
Lemma aexit_entered listed (st : state C) w w' :
  session_exit (world st) = (w, Returns tt) ->
  sse_exit w = (w', Returns tt) ->
  __aexit__ (entered_connector listed) st
  = (moved (printed st log_closing) w', Return tt).
Proof.
  intros H1 H2.
  exact (aexit_closes_both (entered_connector listed) st w w' eq_refl eq_refl H1 H2).
Qed.

(** X7: once [__aenter__] has returned, when the two exits return,
    [async with] closes the client session, then the SSE connection, and
    ends as its block did: with the value the block returned, or raising
    the exception the block raised. *)
Theorem async_with_closes_both :
  forall {A} (body : MCPServerConnector -> M C A) (st st1 st2 : state C)
         c r w w',
    __aenter__ MCPServerConnector_init st = (st1, Return c) ->
    body c st1 = (st2, r) ->
    r <> OutOfFuel ->
    session_exit (world st2) = (w, Returns tt) ->
    sse_exit w = (w', Returns tt) ->
    async_with_connector body st = (moved (printed st2 log_closing) w', r).
Proof.
  intros A body st st1 st2 c r w w' Henter Hbody Hr H1 H2.
  destruct (aenter_returns _ _ _ _ Henter) as (w0 & listed & _ & ->).
  unfold async_with_connector. rewrite Henter, Hbody.
  rewrite (aexit_entered listed st2 w w' H1 H2).
  destruct r; congruence.
Qed.

(** X8: an interrupt ([KeyboardInterrupt] or a cancellation) that leaves
    the chat loop ends [main] without an error, when the two exits return:
    the session and the SSE connection are closed, in that order, then
    [main] prints the line of the interrupt and its last line, and
    returns. *)
Theorem main_interrupted_exits_gracefully :
  forall rounds fuel (st st1 st2 : state C) a key c e w w',
    getenv (world st) "DEEPSEEK_API_KEY" = Some (String a key) ->
    __aenter__ MCPServerConnector_init (printed st [log_init]) = (st1, Return c) ->
    chat_loop rounds fuel (mkClient (Some c)) st1 = (st2, Raise e) ->
    is_interrupt e = true ->
    session_exit (world st2) = (w, Returns tt) ->
    sse_exit w = (w', Returns tt) ->
    main rounds fuel st
    = (moved (printed st2 (log_closing ++ [log_interrupted; log_end])) w',
       Return tt).
Proof.
  intros rounds fuel st st1 st2 a key c e w w' Hkey Henter Hloop He H1 H2.
  rewrite main_eq, Hkey.
  destruct (aenter_returns _ _ _ _ Henter) as (w0 & listed & _ & ->).
  unfold async_with_connector. rewrite Henter, Hloop.
  rewrite (aexit_entered listed st2 w w' H1 H2), He.
  now rewrite printed_moved, printed_printed.
Qed.

(** The loop of [chat_loop] when reading the line raises. *)
Lemma chat_step_input_raises (self : MCPClient) fuel (st : state C) w e :
  input (world st) (LF ++ "Query: ") = (w, Raises e) ->
  chat_step fuel self st
  = if is_Exception e then (printed (moved st w) (report e), Return Continue)
    else (moved st w, Raise e).
Proof.
  intros Hin. unfold chat_step, try_except, bind at 1, call.
  rewrite Hin. cbn [of_reply raise].
  destruct (is_Exception e); [| reflexivity].
  unfold bind, print, ret, printed, moved, report. simpl.
  now rewrite <- List.app_assoc.
Qed.

(** X9: at the end of the input (reading a line raises an [Exception] such
    as [EOFError], and goes on raising it), the chat loop does not end:
    every iteration prints the report of the exception and the loop goes on,
    whatever the number of iterations. *)
Theorem end_of_input_never_leaves_loop :
  forall (self : MCPClient) fuel e rounds (st : state C),
    input (world st) (LF ++ "Query: ") = (world st, Raises e) ->
    is_Exception e = true ->
    chat_rounds rounds fuel self st
    = (printed st (concat (repeat (report e) rounds)), OutOfFuel)
    /\ chat_loop rounds fuel self st
       = (printed st (log_start ++ concat (repeat (report e) rounds)), OutOfFuel).
Proof.
  intros self fuel e rounds.
  assert (H : forall st : state C,
             input (world st) (LF ++ "Query: ") = (world st, Raises e) ->
             is_Exception e = true ->
             chat_rounds rounds fuel self st
             = (printed st (concat (repeat (report e) rounds)), OutOfFuel)).
  { induction rounds as [|rounds IH]; intros st Hin He.
    - destruct st. unfold printed. simpl. now rewrite List.app_nil_r.
    - cbn [chat_rounds]. unfold bind.
      rewrite (chat_step_input_raises self fuel st _ e Hin), He.
      rewrite IH by (try exact Hin; exact He).
      rewrite printed_printed. destruct st. reflexivity. }
  intros st Hin He. split; [now apply H|].
  unfold chat_loop, bind, print. cbn [world stdout messages].
  rewrite H by (try exact Hin; exact He).
  unfold printed, log_start. simpl. now rewrite <- !List.app_assoc.
Qed.

Lemma chat_step_ends (self : MCPClient) fuel (st st' : state C) r :
  chat_step fuel self st = (st', r) ->
  match r with
  | Raise e => is_Exception e = false
  | Return Break => exists st0, st' = printed st0 [log_quit]
  | _ => True
  end.
Proof.
  unfold chat_step, try_except.
  match goal with |- context [bind ?m ?k st] => destruct (bind m k st) as [st1 r1] eqn:E end.
  destruct r1 as [x | e |].
  - intros [= <- <-]. destruct x; [| exact I].
    unfold bind at 1 in E.
    destruct (call _ st) as [st2 [line | e |]]; try discriminate.
    destruct (String.eqb _ _).
    + unfold bind, print, ret in E. injection E as <-. now eexists.
    + unfold bind at 1 in E.
      destruct (process_query _ _ _ _) as [st3 [x | e |]]; discriminate.
  - destruct (is_Exception e) eqn:He.
    + unfold bind, print, ret. intros [= <- <-]. exact I.
    + intros [= <- <-]. exact He.
  - intros [= <- <-]. exact I.
Qed.

(** X10: the chat loop is left in two ways only.  An exception that leaves
    it is not an [Exception] (every [Exception] of a query or of the reading
    of the line is caught and reported by the loop); and when the loop
    returns, the last line printed is that of [quit]. *)
Theorem chat_loop_exits :
  forall (self : MCPClient) rounds fuel (st : state C),
    (forall e, snd (chat_loop rounds fuel self st) = Raise e ->
               is_Exception e = false)
    /\ (snd (chat_loop rounds fuel self st) = Return tt ->
        exists out, stdout (fst (chat_loop rounds fuel self st))
                    = (out ++ [log_quit])%list).
Proof.
  intros self rounds fuel st.
  assert (H : forall st : state C,
             match snd (chat_rounds rounds fuel self st) with
             | Raise e => is_Exception e = false
             | Return _ => exists out,
                 stdout (fst (chat_rounds rounds fuel self st))
                 = (out ++ [log_quit])%list
             | OutOfFuel => True
             end).
  { induction rounds as [|rounds IH]; intros st0; [exact I|].
    cbn [chat_rounds]. unfold bind.
    destruct (chat_step fuel self st0) as [st1 r1] eqn:E.
    apply chat_step_ends in E.
    destruct r1 as [[] | e |]; cbn [fst snd]; auto.
    - destruct E as (s & ->). now exists (stdout s).
    - apply IH. }
  unfold chat_loop, bind, print.
  match goal with |- context [chat_rounds rounds fuel self ?s] => specialize (H s) end.
  destruct (chat_rounds rounds fuel self _) as [st' [[] | e |]]; cbn [fst snd] in *;
    split; try discriminate; auto.
  now intros e' [= <-].
Qed.

(** X11: a final answer that is not a text.  When the first response of the
    chat model has no choice, [process_query] raises an [IndexError]; when
    its message has no tool call and no text (its content is [None]),
    [process_query] raises the [TypeError] of the final [join].  In both
    cases the conversation is the user turn alone. *)
Theorem final_answer_without_text :
  forall (self : MCPClient) c query fuel w response (st : state C),
    connector self = Some c ->
    chat_create (world st) [UserMessage query] (catalog_decls c)
    = (w, Returns response) ->
    (response = [] ->
     process_query (S fuel) self query st
     = (mkState w (stdout st) [UserMessage query],
        Raise (mkExn IndexError "list index out of range")))
    /\ (forall msg more,
           response = msg :: more ->
           msg_tool_calls msg = None \/ msg_tool_calls msg = Some [] ->
           msg_content msg = None ->
           process_query (S fuel) self query st
           = (mkState w (stdout st) [UserMessage query],
              Raise (mkExn TypeError
                           "sequence item 0: expected str instance, NoneType found"))).
Proof.
  intros self c query fuel w response st Hc Hchat. split.
  - intros ->. now rewrite process_query_eq, Hc, Hchat.
  - intros msg more -> Hcalls Htext.
    rewrite process_query_eq, Hc, Hchat, query_loop_final_eq by exact Hcalls.
    now rewrite Htext.
Qed.

(** X12: when the content of a tool result is a dict that holds a value
    [json.dumps] cannot serialize (an object of class [cls]), the body of
    the loop raises the [TypeError] of [json.dumps] after the tool was
    called: no tool result turn is appended for the call. *)
Theorem unserializable_content_raises :
  forall (self : MCPClient) tc args obj d cls (st st1 : state C),
    normalize_arguments (tc_arguments tc) = Returns args ->
    call_tool self (tc_name tc) args st = (st1, Return obj) ->
    getattr obj "content" = Returns (PDict d) ->
    Json.find_unserializable (PDict d) = Some cls ->
    handle_tool_call self tc st
    = (st1, Raise (mkExn TypeError
                         ("Object of type " ++ cls ++ " is not JSON serializable")))
    /\ messages st1 = messages st.
Proof.
  intros self tc args obj d cls st st1 Ha Hcall Hc Hu. split.
  - rewrite handle_tool_call_eq, Ha, Hcall, Hc.
    unfold normalize_content, Json.dumps, Json.dumps_with. now rewrite Hu.
  - exact (proj1 (call_tool_messages _ _ _ _ _ _ Hcall)).
Qed.

Lemma query_loop_grows (self : MCPClient) decls fuel :
  forall response final_text (st st' : state C) r,
    query_loop fuel self decls response final_text st = (st', r) ->
    exists added, messages st' = (messages st ++ added)%list.
Proof.
  induction fuel as [|fuel IH]; intros response final_text st st' r; simpl.
  - intros [= <- <-]. exists []. now rewrite List.app_nil_r.
  - unfold bind at 1.
    destruct response as [|msg more]; simpl.
    { intros [= <- <-]. exists []. now rewrite List.app_nil_r. }
    destruct (msg_tool_calls msg) as [[|tc calls]|] eqn:Ecalls;
      try (intros [= <- <-]; exists []; now rewrite List.app_nil_r).
    unfold bind, append_message, get_messages.
    destruct (for_each (tc :: calls) (handle_tool_call self) _)
      as [st1 r1] eqn:Efor.
    apply for_each_messages in Efor as (contents & Hm & Hr).
    cbn [messages] in Hm. rewrite <- List.app_assoc in Hm.
    destruct Hr as [(-> & Hl) | ((e & ->) & Hl)].
    + unfold call.
      destruct (chat_create (world st1) (messages st1) decls) as [w [response' | e]];
        simpl.
      * intros H. apply IH in H as (added & H). cbn [messages] in H.
        rewrite H, Hm, <- List.app_assoc. eauto.
      * intros [= <- <-]. cbn [messages]. eauto.
    + intros [= <- <-]. eauto.
Qed.

(** X13: within a query the conversation only grows: the loop of
    [process_query] appends turns and never removes or changes one.  A query
    starts from its own user turn, whatever the conversation was before:
    at the end of [process_query], however it ends, the conversation is the
    user turn of the query followed by what the loop appended. *)
Theorem conversation_only_grows :
  forall (self : MCPClient) fuel,
    (forall decls response final_text (st : state C),
        exists added,
          messages (fst (query_loop fuel self decls response final_text st))
          = (messages st ++ added)%list)
    /\ (forall query (st : state C),
          exists added,
            messages (fst (process_query fuel self query st))
            = UserMessage query :: added).
Proof.
  intros self fuel. split.
  - intros decls response final_text st.
    destruct (query_loop fuel self decls response final_text st) as [st' r] eqn:E.
    exact (query_loop_grows _ _ _ _ _ _ _ _ E).
  - intros query st. rewrite process_query_eq.
    destruct (connector self) as [c|]; [| now exists []].
    destruct (chat_create (world st) [UserMessage query] (catalog_decls c))
      as [w [response | e]]; [| now exists []].
    destruct (query_loop fuel self (catalog_decls c) response [] _)
      as [st' r] eqn:E.
    apply query_loop_grows in E as (added & E). cbn [messages] in E.
    exists added. destruct r; cbn [fst]; exact E.
Qed.

(** X14: how [main] ends.  It never raises an interrupt
    ([KeyboardInterrupt] or a cancellation): those are caught.  And when the
    API key is set and [main] ends, by returning or by raising, the last
    line printed is its closing line. *)
Theorem main_outcome :
  forall rounds fuel (st : state C),
    (forall e, snd (main rounds fuel st) = Raise e -> is_interrupt e = false)
    /\ (forall a key,
          getenv (world st) "DEEPSEEK_API_KEY" = Some (String a key) ->
          snd (main rounds fuel st) <> OutOfFuel ->
          exists out, stdout (fst (main rounds fuel st)) = (out ++ [log_end])%list).
Proof.
  intros rounds fuel st. rewrite main_eq. split.
  - intros e.
    destruct (getenv (world st) "DEEPSEEK_API_KEY") as [[|a key]|];
      try (intros [= <-]; reflexivity).
    destruct (async_with_connector _ _) as [st' [[] | e' |]]; try discriminate.
    destruct (is_interrupt e') eqn:He; [discriminate|].
    now intros [= <-].
  - intros a key ->.
    destruct (async_with_connector _ _) as [st' [[] | e' |]]; cbn [fst snd].
    + intros _. now exists (stdout st').
    + destruct (is_interrupt e'); cbn [fst snd]; intros _.
      * exists (stdout st' ++ [log_interrupted])%list. simpl.
        now rewrite <- List.app_assoc.
      * now exists (stdout st').
    + congruence.
Qed.

(** X15: a line that is [quit] in any letter case, with any whitespace of
    [str.strip()] before and after it, ends the chat loop: the line of the
    exit is printed and the loop returns without a request to the chat
    model (the world is the one the reading of the line left). *)
Theorem quit_in_any_case_ends_loop :
  forall (self : MCPClient) fuel rounds us1 word us2 w (st : state C),
    forallb StripFacts.whitespace us1 = true ->
    forallb StripFacts.whitespace us2 = true ->
    Str.lower word = "quit" ->
    input (world st) (LF ++ "Query: ")
    = (w, Returns (StripFacts.padding us1 ++ word ++ StripFacts.padding us2)) ->
    chat_step fuel self st = (printed (moved st w) [log_quit], Return Break)
    /\ chat_loop (S rounds) fuel self st
       = (printed (moved st w) (log_start ++ [log_quit]), Return tt).
Proof.
  intros self fuel rounds us1 word us2 w st H1 H2 Hq Hin.
  assert (Hstep : forall st0 : state C,
             world st0 = world st ->
             chat_step fuel self st0
             = (printed (moved st0 w) [log_quit], Return Break)).
  { intros st0 Hw. unfold chat_step, try_except, bind at 1, call.
    rewrite Hw, Hin. cbn [of_reply ret].
    rewrite (StripFacts.strip_quit us1 us2 word H1 H2 Hq), Hq.
    reflexivity. }
  split; [now apply Hstep|].
  unfold chat_loop, bind at 1 2, print. cbn [chat_rounds]. unfold bind.
  rewrite Hstep by reflexivity.
  unfold printed, moved, log_start. simpl. now rewrite <- !List.app_assoc.
Qed.

Lemma count_turns_app kind l1 l2 :
  count_turns kind (l1 ++ l2) = count_turns kind l1 + count_turns kind l2.
Proof. unfold count_turns. now rewrite filter_app, List.length_app. Qed.

(** X16: the loop of [process_query] has no bound.  With a chat model that
    asks for the same tool at every request and a tool that answers with a
    text, [process_query] does not return within any number of iterations;
    after [fuel] iterations the conversation holds [fuel] tool result
    turns. *)
Theorem tool_loop_has_no_bound :
  forall (self : MCPClient) c tc args query fuel (st : state C),
    connector self = Some c ->
    session c = Some tt ->
    normalize_arguments (tc_arguments tc) = Returns args ->
    (forall w conversation decls,
        exists w' msg more,
          chat_create w conversation decls = (w', Returns (msg :: more))
          /\ msg_tool_calls msg = Some [tc]) ->
    (forall w,
        exists w' obj text,
          session_call_tool w (tc_name tc) args = (w', Returns obj)
          /\ getattr obj "content" = Returns (PStr text)) ->
    snd (process_query fuel self query st) = OutOfFuel
    /\ count_turns is_tool_turn (messages (fst (process_query fuel self query st)))
       = fuel.
Proof.
  intros self c tc args query fuel st Hc Hs Ha Hchat Htool.
  assert (Hloop : forall fuel msg more final_text (st0 : state C),
             msg_tool_calls msg = Some [tc] ->
             exists st',
               query_loop fuel self (catalog_decls c) (msg :: more) final_text st0
               = (st', OutOfFuel)
               /\ count_turns is_tool_turn (messages st')
                  = count_turns is_tool_turn (messages st0) + fuel).
  { clear fuel st. induction fuel as [|fuel IH]; intros msg more ft st0 Hm.
    - exists st0. split; [reflexivity | lia].
    - rewrite (query_loop_calls_eq self _ fuel msg more [tc] ft st0 Hm)
        by discriminate.
      cbn [for_each]. unfold bind at 1.
      rewrite handle_tool_call_eq, Ha.
      rewrite (call_tool_eq self c _ _ _ Hc Hs).
      destruct (Htool (world (appended st0 [AssistantMessage (msg_content msg) [tc]])))
        as (w1 & obj & text & -> & Hcontent).
      rewrite Hcontent. cbn [normalize_content ret].
      match goal with
      | |- context [chat_create ?w ?conv ?d] =>
          destruct (Hchat w conv d) as (w2 & msg' & more' & -> & Hm')
      end.
      destruct (IH msg' more' ft
                   (moved (printed (appended (moved (printed (appended st0 [AssistantMessage (msg_content msg) [tc]]) [log_call (tc_name tc) args]) w1) [ToolMessage (tc_id tc) text]) [log_result (tc_name tc) text]) w2) Hm')
        as (st' & -> & Hn).
      exists st'. split; [reflexivity|].
      rewrite Hn. cbn [messages moved printed appended].
      rewrite !count_turns_app. cbn. lia. }
  rewrite process_query_eq, Hc.
  destruct (Hchat (world st) [UserMessage query] (catalog_decls c))
    as (w & msg & more & -> & Hm).
  destruct (Hloop fuel msg more [] (mkState w (stdout st) [UserMessage query]) Hm)
    as (st' & -> & Hn).
  cbn [fst snd]. split; [reflexivity|]. rewrite Hn. reflexivity.
Qed.

(** X17: a fault of the close hides how the session ended.  When the chat
    loop was left (by [quit] or by an interrupt) and closing the client
    session raises an exception that is not an interrupt, [main] raises
    that exception: the SSE connection is not closed, the line of the
    graceful exit is not printed, and only the closing line of [main]
    follows. *)
Theorem main_close_fault :
  forall rounds fuel (st st1 st2 : state C) a key c r w e,
    getenv (world st) "DEEPSEEK_API_KEY" = Some (String a key) ->
    __aenter__ MCPServerConnector_init (printed st [log_init]) = (st1, Return c) ->
    chat_loop rounds fuel (mkClient (Some c)) st1 = (st2, r) ->
    r <> OutOfFuel ->
    session_exit (world st2) = (w, Raises e) ->
    is_interrupt e = false ->
    main rounds fuel st
    = (moved (printed st2 ["[LOG] 正在关闭 MCPServerConnector 资源..."; log_end]) w,
       Raise e).
Proof.
  intros rounds fuel st st1 st2 a key c r w e Hkey Henter Hloop Hr Hexit He.
  destruct (aenter_returns _ _ _ _ Henter) as (w0 & listed & _ & ->).
  assert (Hclose : __aexit__ (entered_connector listed) st2
                   = (moved (printed st2 ["[LOG] 正在关闭 MCPServerConnector 资源..."]) w,
                      Raise e)).
  { unfold __aexit__. cbn [_session_cm entered_connector].
    unfold bind, print, call. cbn [world stdout messages]. now rewrite Hexit. }
  rewrite main_eq, Hkey. unfold async_with_connector.
  rewrite Henter, Hloop.
  destruct r as [[] | e' |]; [| | congruence]; rewrite Hclose, He;
    now rewrite printed_moved, printed_printed.
Qed.

Lemma normalize_content_raises content e :
  normalize_content content = Raises e -> exc_class e = TypeError.
Proof.
  assert (D : forall v, Json.dumps v = Raises e -> exc_class e = TypeError).
  { intros v. unfold Json.dumps, Json.dumps_with.
    destruct (Json.find_unserializable v); [| discriminate].
    now intros [= <-]. }
  destruct content as [| | | | | | | ? ? ? [[]|]]; simpl;
    try discriminate; apply D.
Qed.


End Extras.

(** ** More sessions to run *)

Module Faults.
Import Scripted Scenario.

(** The world of [w] with another environment, other files, another
    listing of the tools. *)
Definition with_setup (env files : list (string * string))
           (listing : reply (list Tool)) (w : script) : script :=
  mkWorld env files (chat_script w) (tool_script w) (lines w) listing
          (session_close w) (sse_open w) (session_open w) (sent w)
          (dispatched w).

(** No API key; no configuration file; a configuration without servers. *)
Definition no_key : script := with_setup [] (files base) (catalog base) base.

Definition no_config : script := with_setup (environ base) [] (catalog base) base.

Definition no_servers : script :=
  with_setup (environ base) [("mcp.json", "{}")] (catalog base) base.

(** Listing the tools fails. *)
Definition closed_stream : exn :=
  mkExn (OtherException "McpError") "Connection closed".

Definition failing_listing : script :=
  with_setup (environ base) (files base) (Raises closed_stream) base.

(** The server lists two tools of the same name. *)
Definition weather_tool (description : string) : Tool :=
  mkTool "get_weather" (PStr description) (PDict [("type", PStr "object")]).

Definition clock_tool : Tool :=
  mkTool "get_time" (PStr "Time of a city") (PDict [("type", PStr "object")]).

Definition twice_listed : list Tool :=
  [weather_tool "Weather of a city"; clock_tool; weather_tool "Forecast of a city"].

Definition repeating : script :=
  with_setup (environ base) (files base) (Returns twice_listed) base.

(** The user interrupts at the prompt; the remote call is cancelled. *)
Definition interrupt : exn := mkExn KeyboardInterrupt "".

Definition cancelled : exn := mkExn CancelledError "".

Definition interrupted : script :=
  with_scripts [] [] [Raises interrupt] (Returns tt).

Definition interrupted_failing_close : script :=
  with_scripts [] [] [Raises interrupt] (Raises close_fault).

Definition cancelled_call : script :=
  with_scripts [asks [weather_call "call_1" beijing; weather_call "call_2" beijing]]
               [Raises cancelled; Returns [("content", PStr "21")]]
               [] (Returns tt).

(** The terminal is at end of file. *)
Definition at_eof : script := with_scripts [] [] [] (Returns tt).

Definition end_of_file : exn := mkExn EOFError "EOF when reading a line".

(** The chat model answers with no text and no tool call; with no choice. *)
Definition silent : script :=
  with_scripts [Returns [mkChatMessage None None]] [] [] (Returns tt).

Definition no_choice : script := with_scripts [Returns []] [] [] (Returns tt).

(** The content of the tool result holds a date. *)
Definition dated : pyval :=
  PDict [("temperature", PInt 21);
         ("at", PObj "datetime" "2024-05-01 12:00:00"
                     "datetime.datetime(2024, 5, 1, 12, 0)" None)].

Definition dating : script :=
  with_scripts [asks [weather_call "call_1" beijing]; says answer]
               [Returns [("content", dated)]] [] (Returns tt).

(** The user writes [QuIt] after a space and an ideographic space (U+3000),
    and ends the line with a tab. *)
Definition ideographic_space : string :=
  String (Str.byte 227) (String (Str.byte 128) (String (Str.byte 128) "")).

Definition tab : string := String (Str.byte 9) "".

Definition quitting : script :=
  with_scripts [] []
               [Returns (StripFacts.padding [" "; ideographic_space]
                         ++ "QuIt" ++ StripFacts.padding [tab])]
               (Returns tt).

(** Collaborators with a chat model that asks for the weather at every
    request (the world counts the requests) and a tool that answers. *)
Definition insistent : Collaborators := {|
  World := nat;
  getenv := fun _ _ => Some "sk-test";
  read_file := fun w _ => (w, Returns "{}");
  chat_create := fun w _ _ =>
    (S w, Returns [mkChatMessage None (Some [weather_call "call_1" beijing])]);
  sse_enter := fun w _ => (w, Returns tt);
  sse_exit := fun w => (w, Returns tt);
  session_enter := fun w => (w, Returns tt);
  session_exit := fun w => (w, Returns tt);
  session_initialize := fun w => (w, Returns tt);
  session_list_tools := fun w => (w, Returns []);
  session_call_tool := fun w _ _ => (w, Returns [("content", PStr "21")]);
  input := fun w _ => (w, Returns "weather?")
|}.

(** The URL of the configuration file of [base]. *)
Definition sse_url : pyval := PStr "https://mcp.example/sse".

End Faults.

(** ** The further properties on these sessions *)

Section FaultRuns.
Import Scripted Scenario Faults.

(** X1 on a world without the key. *)
Lemma main_without_api_key_witness :
  main 3 3 (start no_key) = (start no_key, Raise key_missing).
Proof.
  refine (main_without_api_key 3 3 (start no_key) _). left. reflexivity.
Defined.

(** X2 on a world without the configuration file. *)
Lemma main_config_unreadable_witness :
  main 3 3 (start no_config)
  = (mkState no_config [log_init; log_end] [],
     Raise (mkExn FileNotFoundError "No such file or directory: mcp.json")).
Proof.
  refine (main_config_unreadable 3 3 (start no_config) _ _ _ _ _ _ _);
    vm_compute; reflexivity.
Defined.

(** X3 on a configuration that is an empty object. *)
Lemma aenter_bad_config_witness :
  __aenter__ MCPServerConnector_init (start no_servers)
  = (start no_servers, Raise (mkExn KeyError "'mcpServers'")).
Proof.
  refine (proj1 (aenter_bad_config MCPServerConnector_init (start no_servers)
                                   no_servers "{}" _ _ _));
    vm_compute; reflexivity.
Defined.

(** X4 on a server whose listing of the tools fails: both are left open. *)
Lemma enter_fault_skips_exit_witness :
  async_with_connector (fun connector => chat_loop 3 3 (mkClient (Some connector)))
                       (start failing_listing)
  = (moved (printed (start failing_listing)
                    (log_entered sse_url 4))
           (opened failing_listing),
     Raise closed_stream)
  /\ sse_open (opened failing_listing) = true
  /\ session_open (opened failing_listing) = true.
Proof.
  split; [| split; reflexivity].
  refine (proj2 (enter_fault_skips_exit
                   (fun connector => chat_loop 3 3 (mkClient (Some connector)))
                   (start failing_listing)
                   failing_listing
                   (dq "{`mcpServers`: {`amap-amap-sse`: {`url`: `https://mcp.example/sse`}}}")
                   sse_url
                   (set_open failing_listing true false)
                   (opened failing_listing) _ _ _ _)
                (opened failing_listing) (opened failing_listing) closed_stream
                _ _);
    vm_compute; reflexivity.
Defined.

(** X5 on a server that lists two tools of the same name: the second is kept, at the place of the first. *)
Lemma catalog_after_enter_witness :
  NoDup (map fn_name (catalog_decls (entered_connector twice_listed)))
  /\ catalog_decls (entered_connector twice_listed)
     = [decl_of (weather_tool "Forecast of a city"); decl_of clock_tool].
Proof.
  split; [| reflexivity].
  refine (proj1 (proj2 (proj2 (proj2 (proj2
            (catalog_after_enter MCPServerConnector_init (start repeating)
                                 _ (entered_connector twice_listed) _))))));
    vm_compute; reflexivity.
Defined.

(** X6 on an assistant turn of two calls, the first one cancelled. *)
Lemma interrupt_in_tool_call_propagates_witness :
  for_each [weather_call "call_1" beijing; weather_call "call_2" beijing]
           (handle_tool_call connected) (start cancelled_call)
  = (mkState (fst (s_call_tool cancelled_call "get_weather" beijing))
             [log_call "get_weather" beijing] [],
     Raise cancelled).
Proof.
  refine (proj2 (interrupt_in_tool_call_propagates
                   connected entered (weather_call "call_1" beijing) beijing
                   _ cancelled [weather_call "call_2" beijing]
                   (start cancelled_call) _ _ _ _ _));
    vm_compute; reflexivity.
Defined.

(** X7 on a session interrupted at the prompt. *)
Lemma async_with_closes_both_witness :
  async_with_connector
    (fun connector => chat_loop 3 3 (mkClient (Some connector)))
    (start interrupted)
  = (mkState base (log_ready sse_url 1
                   ++ log_start ++ log_closing) [],
     Raise interrupt).
Proof.
  refine (async_with_closes_both
            (fun connector => chat_loop 3 3 (mkClient (Some connector)))
            (start interrupted)
            (mkState (opened interrupted)
                     (log_ready sse_url 1) [])
            (mkState (opened base)
                     (log_ready sse_url 1 ++ log_start) [])
            entered (Raise interrupt)
            (set_open (opened base) true false) (set_open (opened base) false false)
            _ _ _ _ _);
    try discriminate; vm_compute; reflexivity.
Defined.

(** X8 on the same session, for the whole program. *)
Lemma main_interrupted_exits_gracefully_witness :
  main 3 3 (start interrupted)
  = (mkState base
             (log_init :: log_ready sse_url 1 ++ log_start ++ log_closing
              ++ [log_interrupted; log_end])
             [],
     Return tt).
Proof.
  refine (main_interrupted_exits_gracefully
            3 3 (start interrupted)
            (mkState (opened interrupted) (log_init :: log_ready sse_url 1) [])
            (mkState (opened base) (log_init :: log_ready sse_url 1 ++ log_start) [])
            "s" "k-test" entered interrupt
            (set_open (opened base) true false) (set_open (opened base) false false)
            _ _ _ _ _ _);
    vm_compute; reflexivity.
Defined.

(** X9 on a terminal at end of file, for four iterations. *)
Lemma end_of_input_never_leaves_loop_witness :
  chat_loop 4 3 connected (start at_eof)
  = (printed (start at_eof) (log_start ++ concat (repeat (report end_of_file) 4)),
     OutOfFuel).
Proof.
  refine (proj2 (end_of_input_never_leaves_loop
                   connected 3 end_of_file 4 (start at_eof) _ _));
    vm_compute; reflexivity.
Defined.

(** X11 on a chat model that answers with no text. *)
Lemma final_answer_without_text_witness :
  process_query 1 connected "Hello" (start silent)
  = (mkState (fst (s_chat_create silent [UserMessage "Hello"] (catalog_decls entered)))
             [] [UserMessage "Hello"],
     Raise (mkExn TypeError
                  "sequence item 0: expected str instance, NoneType found")).
Proof.
  refine (proj2 (final_answer_without_text
                   connected entered "Hello" 0
                   (fst (s_chat_create silent [UserMessage "Hello"] (catalog_decls entered)))
                   [mkChatMessage None None] (start silent) _ _)
                (mkChatMessage None None) [] _ _ _);
    try (left; reflexivity); vm_compute; reflexivity.
Defined.

(** X12 on a tool result that holds a date. *)
Lemma unserializable_content_raises_witness :
  handle_tool_call connected (weather_call "call_1" beijing) (start dating)
  = (mkState (fst (s_call_tool dating "get_weather" beijing))
             [log_call "get_weather" beijing] [],
     Raise (mkExn TypeError "Object of type datetime is not JSON serializable")).
Proof.
  refine (proj1 (unserializable_content_raises
                   connected (weather_call "call_1" beijing) beijing
                   [("content", dated)]
                   [("temperature", PInt 21);
                    ("at", PObj "datetime" "2024-05-01 12:00:00"
                                "datetime.datetime(2024, 5, 1, 12, 0)" None)]
                   "datetime" (start dating)
                   (mkState (fst (s_call_tool dating "get_weather" beijing))
                            [log_call "get_weather" beijing] [])
                   _ _ _ _));
    vm_compute; reflexivity.
Defined.

(** X15 on a padded line. *)
Lemma quit_in_any_case_ends_loop_witness :
  chat_loop 1 3 connected (start quitting)
  = (mkState at_eof (log_start ++ [log_quit]) [], Return tt).
Proof.
  refine (proj2 (quit_in_any_case_ends_loop
                   connected 3 0 [" "; ideographic_space] "QuIt" [tab]
                   at_eof (start quitting) _ _ _ _));
    vm_compute; reflexivity.
Defined.

(** X16 on the insistent chat model, for five iterations. *)
Lemma tool_loop_has_no_bound_witness :
  snd (@process_query insistent 5 connected question (@mkState insistent 0 [] []))
  = OutOfFuel
  /\ count_turns is_tool_turn
       (messages (fst (@process_query insistent 5 connected question
                                      (@mkState insistent 0 [] []))))
     = 5.
Proof.
  refine (@tool_loop_has_no_bound
            insistent connected entered (weather_call "call_1" beijing) beijing
            question 5 (@mkState insistent 0 [] []) eq_refl eq_refl eq_refl _ _).
  - intros w conversation decls.
    exists (S w), (mkChatMessage None (Some [weather_call "call_1" beijing])), [].
    split; reflexivity.
  - intros w. exists w, [("content", PStr "21")], "21". split; reflexivity.
Defined.

(** X17 on a session interrupted at the prompt whose close fails. *)
Lemma main_close_fault_witness :
  main 3 3 (start interrupted_failing_close)
  = (mkState (opened (with_scripts [] [] [] (Raises close_fault)))
             (log_init :: log_ready sse_url 1 ++ log_start
              ++ ["[LOG] 正在关闭 MCPServerConnector 资源..."; log_end])
             [],
     Raise close_fault).
Proof.
  refine (main_close_fault
            3 3 (start interrupted_failing_close)
            (mkState (opened interrupted_failing_close)
                     (log_init :: log_ready sse_url 1) [])
            (mkState (opened (with_scripts [] [] [] (Raises close_fault)))
                     (log_init :: log_ready sse_url 1 ++ log_start) [])
            "s" "k-test" entered (Raise interrupt)
            (opened (with_scripts [] [] [] (Raises close_fault))) close_fault
            _ _ _ _ _ _);
    try discriminate; vm_compute; reflexivity.
Defined.


End FaultRuns.
